(** * Expression-Tree-Visualizer-and-Evaluator: [expression_tree.py]

    A shallow embedding of the expression-tree engine of
    [src/Expression Tree Builder/expression_tree.py] and the properties its
    specification states about it.

    Conventions of the embedding.
    - A Python [str] is a [string]; each [ascii] is read as the code point
      of the same number (U+0000 .. U+00FF).
    - A Python exception is a value of [exn]; a call either returns or
      raises ([result]).  [ValueError] carries the message of the source.
    - The Python lists used as stacks ([append] / [pop] at the end) are
      kept with their last element first, so that the top of the stack is
      the head of the list.  Lists used as sequences ([output], the token
      lists) keep the order of the source.
    - A reference to a [TreeNode] that may be [None] is a [TreeNode] whose
      constructor [PyNone] stands for [None].
    - Recursion depth is not bounded (the interpreter's recursion limit is
      not part of the model). *)

From Stdlib Require Import String Ascii List ZArith NArith Bool Arith Lia.
From Stdlib Require Import Sorting.Permutation.
From Stdlib Require Import Floats.PrimFloat Floats.SpecFloat Floats.FloatOps.
Import ListNotations.
Open Scope string_scope.
Open Scope list_scope.

(* ===================================================================== *)
(** * Python runtime: exceptions and results                              *)
(* ===================================================================== *)

Inductive exn : Type :=
| ValueError (msg : string)
| IndexError
| KeyError (key : string)
| ZeroDivisionError
| OverflowError.

(** The outcome of a call.  [Unmodelled] marks the one place where the
    embedding stops: the value of [operator.pow], which comes from the
    platform's C library. *)
Inductive result (A : Type) : Type :=
| Return (x : A)
| Raise (e : exn)
| Unmodelled.

Arguments Return {A} x.
Arguments Raise {A} e.
Arguments Unmodelled {A}.

Definition bind {A B : Type} (r : result A) (k : A -> result B) : result B :=
  match r with
  | Return x => k x
  | Raise e => Raise e
  | Unmodelled => Unmodelled
  end.

Declare Scope py_scope.
Delimit Scope py_scope with py.
Notation "x <- c ;; k" := (bind c (fun x => k))
  (at level 61, c at next level, right associativity) : py_scope.
Notation "' p <- c ;; k" := (bind c (fun x => match x with p => k end))
  (at level 61, p pattern, c at next level, right associativity) : py_scope.
Open Scope py_scope.

(** [stack.pop()]: removes and returns the last element of the list, here
    the head; [IndexError] on an empty list. *)
Definition pop {A : Type} (stack : list A) : result (A * list A) :=
  match stack with
  | [] => Raise IndexError
  | x :: stack' => Return (x, stack')
  end.

(** [l[i]] for a Python list in source order, negative indices counting
    from the end. *)
Definition getitem {A : Type} (l : list A) (i : Z) : result A :=
  let n := Z.of_nat (List.length l) in
  let j := if (i <? 0)%Z then (i + n)%Z else i in
  if ((j <? 0) || (n <=? j))%Z then Raise IndexError
  else match nth_error l (Z.to_nat j) with
       | Some x => Return x
       | None => Raise IndexError
       end.

(** [stack[-1]] for a stack kept with its last element first. *)
Definition stack_last {A : Type} (stack : list A) : result A :=
  match stack with
  | [] => Raise IndexError
  | x :: _ => Return x
  end.

(* ===================================================================== *)
(** * Python runtime: [str.isalnum]                                       *)
(* ===================================================================== *)

Definition in_range (lo hi n : N) : bool := ((lo <=? n) && (n <=? hi))%N.

(** The code points below U+0100 for which [isalnum] holds: the ASCII
    digits and letters, and in the Latin-1 block the letters (categories
    Lu, Ll, Lo) and the characters with a numeric value. *)
Definition isalnum_char (c : ascii) : bool :=
  let n := N_of_ascii c in
  in_range 48 57 n || in_range 65 90 n || in_range 97 122 n
  || (n =? 170)%N || in_range 178 179 n || (n =? 181)%N
  || in_range 185 186 n || in_range 188 190 n
  || in_range 192 214 n || in_range 216 246 n || in_range 248 255 n.

Fixpoint all_chars (p : ascii -> bool) (s : string) : bool :=
  match s with
  | EmptyString => true
  | String c s' => p c && all_chars p s'
  end.

(** [s.isalnum()]: every character is alphanumeric and there is at least
    one character. *)
Definition isalnum (s : string) : bool :=
  match s with
  | EmptyString => false
  | _ => all_chars isalnum_char s
  end.

(** [x in {...}] for a set literal of strings. *)
Definition str_in (x : string) (s : list string) : bool :=
  existsb (String.eqb x) s.

(* ===================================================================== *)
(** * The tree node                                                       *)
(* ===================================================================== *)

(** [class TreeNode]: a value and two child references, [None] after
    construction. *)
Inductive TreeNode : Type :=
| PyNone
| Node (value : string) (left right : TreeNode).

(** [TreeNode(value)] *)
Definition new_TreeNode (value : string) : TreeNode := Node value PyNone PyNone.

(* ===================================================================== *)
(** * Helper functions                                                    *)
(* ===================================================================== *)

Definition is_operator (token : string) : bool :=
  str_in token ["+"; "-"; "*"; "/"; "^"].

Definition is_operand (token : string) : bool := isalnum token.

(* ===================================================================== *)
(** * Building a tree from postfix and prefix token lists                 *)
(* ===================================================================== *)

(** The [for token in postfix] loop of [build_tree_from_postfix], from the
    stack reached so far. *)
Fixpoint build_postfix_loop (postfix : list string) (stack : list TreeNode)
  : result (list TreeNode) :=
  match postfix with
  | [] => Return stack
  | token :: rest =>
      if is_operand token then
        build_postfix_loop rest (new_TreeNode token :: stack)
      else if is_operator token then
        if (List.length stack <? 2)%nat then
          Raise (ValueError "Invalid postfix expression. Not enough operands.")
        else
          ' (node_right, stack) <- pop stack ;;
          ' (node_left, stack) <- pop stack ;;
          build_postfix_loop rest (Node token node_left node_right :: stack)
      else
        Raise (ValueError ("Invalid token in postfix expression: " ++ token)%string)
  end.

Definition build_tree_from_postfix (postfix : list string) : result TreeNode :=
  stack <- build_postfix_loop postfix [] ;;
  if negb (List.length stack =? 1)%nat then
    Raise (ValueError
      "Invalid postfix expression. Incorrect number of operands/operators.")
  else stack_last stack.

(** The [for token in reversed(prefix)] loop of [build_tree_from_prefix];
    [tokens] is the reversed list. *)
Fixpoint build_prefix_loop (tokens : list string) (stack : list TreeNode)
  : result (list TreeNode) :=
  match tokens with
  | [] => Return stack
  | token :: rest =>
      if is_operand token then
        build_prefix_loop rest (new_TreeNode token :: stack)
      else if is_operator token then
        if (List.length stack <? 2)%nat then
          Raise (ValueError "Invalid prefix expression. Not enough operands.")
        else
          ' (node_left, stack) <- pop stack ;;
          ' (node_right, stack) <- pop stack ;;
          build_prefix_loop rest (Node token node_left node_right :: stack)
      else
        Raise (ValueError ("Invalid token in prefix expression: " ++ token)%string)
  end.

Definition build_tree_from_prefix (prefix : list string) : result TreeNode :=
  stack <- build_prefix_loop (rev prefix) [] ;;
  if negb (List.length stack =? 1)%nat then
    Raise (ValueError
      "Invalid prefix expression. Incorrect number of operands/operators.")
  else stack_last stack.

(* ===================================================================== *)
(** * Infix to postfix (shunting yard)                                    *)
(* ===================================================================== *)

(** [precedence[op]] *)
Definition precedence (op : string) : result nat :=
  if op =? "+" then Return 1
  else if op =? "-" then Return 1
  else if op =? "*" then Return 2
  else if op =? "/" then Return 2
  else if op =? "^" then Return 3
  else Raise (KeyError op).

(** [associativity[op]] *)
Definition associativity (op : string) : result string :=
  if op =? "+" then Return "L"
  else if op =? "-" then Return "L"
  else if op =? "*" then Return "L"
  else if op =? "/" then Return "L"
  else if op =? "^" then Return "R"
  else Raise (KeyError op).

(** The part of the operator loop's condition that compares the token
    with the top of the stack, evaluated left to right. *)
Definition yields_to (token top : string) : result bool :=
  pt <- precedence token ;;
  ptop <- precedence top ;;
  if (pt <? ptop)%nat then Return true
  else
    pt' <- precedence token ;;
    ptop' <- precedence top ;;
    if (pt' =? ptop')%nat then
      a <- associativity token ;;
      Return (a =? "L")
    else Return false.

(** [while (stack and stack[-1] != '(' and ...): output.append(stack.pop())] *)
Fixpoint pop_operators (token : string) (output stack : list string)
  : result (list string * list string) :=
  match stack with
  | [] => Return (output, stack)
  | top :: stack' =>
      if negb (top =? "(") then
        go <- yields_to token top ;;
        if (go : bool) then pop_operators token (output ++ [top]) stack'
        else Return (output, stack)
      else Return (output, stack)
  end.

(** [while stack and stack[-1] != '(': output.append(stack.pop())] *)
Fixpoint pop_to_paren (output stack : list string)
  : list string * list string :=
  match stack with
  | [] => (output, stack)
  | top :: stack' =>
      if negb (top =? "(") then pop_to_paren (output ++ [top]) stack'
      else (output, stack)
  end.

(** [while stack: output.append(stack.pop())] *)
Fixpoint pop_all (output stack : list string) : list string :=
  match stack with
  | [] => output
  | top :: stack' => pop_all (output ++ [top]) stack'
  end.

(** The [for token in expression] loop of [infix_to_postfix]. *)
Fixpoint infix_loop (expression : list string) (output stack : list string)
  : result (list string * list string) :=
  match expression with
  | [] => Return (output, stack)
  | token :: rest =>
      if is_operand token then
        infix_loop rest (output ++ [token]) stack
      else if is_operator token then
        ' (output, stack) <- pop_operators token output stack ;;
        infix_loop rest output (token :: stack)
      else if token =? "(" then
        infix_loop rest output (token :: stack)
      else if token =? ")" then
        let '(output, stack) := pop_to_paren output stack in
        ' (_, stack) <- pop stack ;;
        infix_loop rest output stack
      else
        Raise (ValueError ("Invalid token in infix expression: " ++ token)%string)
  end.

Definition infix_to_postfix (expression : list string) : result (list string) :=
  ' (output, stack) <- infix_loop expression [] [] ;;
  Return (pop_all output stack).

(* ===================================================================== *)
(** * Detecting the notation                                              *)
(* ===================================================================== *)

Definition detect_expression_type (expression : list string) : result string :=
  first <- getitem expression 0 ;;
  if is_operator first then Return "prefix"
  else
    last <- getitem expression (-1) ;;
    if is_operator last then Return "postfix"
    else Return "infix".

(* ===================================================================== *)
(** * Conversions                                                         *)
(* ===================================================================== *)

Fixpoint to_infix (node : TreeNode) : string :=
  match node with
  | PyNone => ""
  | Node value node_left node_right =>
      if is_operator value then
        ("(" ++ to_infix node_left ++ " " ++ value ++ " "
             ++ to_infix node_right ++ ")")%string
      else value
  end.

Fixpoint to_postfix (node : TreeNode) : list string :=
  match node with
  | PyNone => []
  | Node value node_left node_right =>
      to_postfix node_left ++ to_postfix node_right ++ [value]
  end.

Fixpoint to_prefix (node : TreeNode) : list string :=
  match node with
  | PyNone => []
  | Node value node_left node_right =>
      [value] ++ to_prefix node_left ++ to_prefix node_right
  end.

(* ===================================================================== *)
(** * Python runtime: numbers                                             *)
(* ===================================================================== *)

(** The values [evaluate_tree] computes with: the [int] returned for an
    absent node and the [float]s of the operands (IEEE binary64). *)
Inductive number : Type :=
| PyInt (n : Z)
| PyFloat (x : float).

(** The binary64 value nearest to an integer (ties to even, infinity
    beyond the range). *)
Definition float_of_Z (n : Z) : float :=
  SF2Prim (binary_normalize prec emax n 0 false).

(** Conversion of an [int] operand in mixed arithmetic. *)
Definition int_to_float (n : Z) : result float :=
  let x := float_of_Z n in
  if is_infinity x then Raise OverflowError else Return x.

Definition as_float (v : number) : result float :=
  match v with
  | PyInt n => int_to_float n
  | PyFloat x => Return x
  end.

Definition spec_of_Z (n : Z) : spec_float :=
  match n with
  | Z0 => S754_zero false
  | Zpos p => S754_finite false p 0
  | Zneg p => S754_finite true p 0
  end.

(** [operator.add], [operator.sub], [operator.mul]: exact on two [int]s,
    binary64 otherwise. *)
Definition arith (fz : Z -> Z -> Z) (ff : float -> float -> float)
  (a b : number) : result number :=
  match a, b with
  | PyInt m, PyInt n => Return (PyInt (fz m n))
  | _, _ =>
      x <- as_float a ;;
      y <- as_float b ;;
      Return (PyFloat (ff x y))
  end.

(** True division of two [int]s: the quotient rounded to binary64,
    [OverflowError] beyond the range. *)
Definition int_true_divide (m n : Z) : result number :=
  if (n =? 0)%Z then Raise ZeroDivisionError
  else
    let q := SF2Prim (SFdiv prec emax (spec_of_Z m) (spec_of_Z n)) in
    if is_infinity q then Raise OverflowError else Return (PyFloat q).

(** [operator.truediv]: a zero divisor raises [ZeroDivisionError], for
    [int] and for [float] (both signed zeros). *)
Definition truediv (a b : number) : result number :=
  match a, b with
  | PyInt m, PyInt n => int_true_divide m n
  | _, _ =>
      x <- as_float a ;;
      y <- as_float b ;;
      if PrimFloat.eqb y zero then Raise ZeroDivisionError
      else Return (PyFloat (x / y)%float)
  end.

(** [operator.pow]: its value (a float of the C library's [pow], a complex
    number, an exception) is not fixed by the source; in [evaluate_tree]
    an evaluation that reaches it is [Unmodelled], and so is every
    evaluation that needs its value.  [evaluate_tree_on] below takes the
    outcome of [pow] from the platform instead. *)
Definition pow (a b : number) : result number := Unmodelled.

(** ** [float(s)] on alphanumeric strings

    [evaluate_tree] calls [float] only on a token for which [isalnum]
    holds, so no sign, point or blank can occur: the token is a decimal
    integer, optionally followed by [e] or [E] and a decimal exponent, or
    one of [inf], [infinity], [nan] in any case.  [None] stands for the
    [ValueError] of [float]. *)

Definition is_digit (c : ascii) : bool := in_range 48 57 (N_of_ascii c).

Fixpoint digits_value (s : string) (acc : Z) : option Z :=
  match s with
  | EmptyString => Some acc
  | String c s' =>
      if is_digit c
      then digits_value s' (10 * acc + Z.of_N (N_of_ascii c - 48))%Z
      else None
  end.

Definition decimal (s : string) : option Z :=
  match s with
  | EmptyString => None
  | _ => digits_value s 0
  end.

Fixpoint split_exponent (s : string) : string * option string :=
  match s with
  | EmptyString => (EmptyString, None)
  | String c s' =>
      if (c =? "e")%char || (c =? "E")%char then (EmptyString, Some s')
      else let '(m, e) := split_exponent s' in (String c m, e)
  end.

Definition lower_char (c : ascii) : ascii :=
  let n := N_of_ascii c in
  if in_range 65 90 n then ascii_of_N (n + 32) else c.

Fixpoint lower (s : string) : string :=
  match s with
  | EmptyString => EmptyString
  | String c s' => String (lower_char c) (lower s')
  end.

Definition float_of_alnum (s : string) : option float :=
  let l := lower s in
  if (l =? "inf") || (l =? "infinity") then Some infinity
  else if l =? "nan" then Some nan
  else
    let '(m, e) := split_exponent s in
    match decimal m, e with
    | Some m, None => Some (float_of_Z m)
    | Some m, Some e =>
        match decimal e with
        | Some k => Some (float_of_Z (m * 10 ^ k))
        | None => None
        end
    | None, _ => None
    end.

(* ===================================================================== *)
(** * Evaluating a tree                                                   *)
(* ===================================================================== *)

(** [operations[op]] *)
Definition operations (op : string)
  : result (number -> number -> result number) :=
  if op =? "+" then Return (arith Z.add PrimFloat.add)
  else if op =? "-" then Return (arith Z.sub PrimFloat.sub)
  else if op =? "*" then Return (arith Z.mul PrimFloat.mul)
  else if op =? "/" then Return truediv
  else if op =? "^" then Return pow
  else Raise (KeyError op).

Fixpoint evaluate_tree (node : TreeNode) : result number :=
  match node with
  | PyNone => Return (PyInt 0)
  | Node value node_left node_right =>
      if is_operand value then
        match float_of_alnum value with
        | Some x => Return (PyFloat x)
        | None =>
            Raise (ValueError "Cannot evaluate expression with variables.")
        end
      else if is_operator value then
        left_value <- evaluate_tree node_left ;;
        right_value <- evaluate_tree node_right ;;
        op <- operations value ;;
        op left_value right_value
      else Raise (ValueError "Invalid node in expression tree.")
  end.

(* ===================================================================== *)
(** * Vocabulary of the specification                                     *)
(* ===================================================================== *)

(** The error kinds of the specification (section 7). *)
Inductive ErrorKind : Type :=
| EmptyExpression
| InvalidToken
| UnbalancedParentheses
| InsufficientOperands
| MalformedExpression
| NonNumericOperand
| CorruptTree.

(** The kind an exception of the program reports, read off the message of
    the [ValueError]; the other exceptions are raised by the runtime and
    report none of the kinds. *)
Definition error_kind (e : exn) : option ErrorKind :=
  match e with
  | ValueError msg =>
      if (msg =? "Invalid postfix expression. Not enough operands.")
         || (msg =? "Invalid prefix expression. Not enough operands.")
      then Some InsufficientOperands
      else if (msg =? "Invalid postfix expression. Incorrect number of operands/operators.")
              || (msg =? "Invalid prefix expression. Incorrect number of operands/operators.")
      then Some MalformedExpression
      else if prefix "Invalid token in postfix expression: " msg
              || prefix "Invalid token in prefix expression: " msg
              || prefix "Invalid token in infix expression: " msg
      then Some InvalidToken
      else if msg =? "Cannot evaluate expression with variables."
      then Some NonNumericOperand
      else if msg =? "Invalid node in expression tree."
      then Some CorruptTree
      else None
  | _ => None
  end.

(** [r] fails with an error of kind [k]. *)
Definition fails_with {A : Type} (r : result A) (k : ErrorKind) : Prop :=
  exists e, r = Raise e /\ error_kind e = Some k.

Definition is_none (node : TreeNode) : bool :=
  match node with
  | PyNone => true
  | Node _ _ _ => false
  end.

(** The node invariant of the data model: an operand value has no child,
    an operator value has both. *)
Definition node_invariant (value : string) (l r : TreeNode) : bool :=
  implb (is_operand value) (is_none l && is_none r)
  && implb (is_operator value) (negb (is_none l) && negb (is_none r)).

(** The invariant at every node of a tree. *)
Fixpoint tree_invariant (node : TreeNode) : bool :=
  match node with
  | PyNone => true
  | Node value l r =>
      node_invariant value l r && tree_invariant l && tree_invariant r
  end.

(** The shape of the nodes the builders create: an operand leaf, or an
    operator over two such nodes. *)
Fixpoint built_shape (node : TreeNode) : bool :=
  match node with
  | PyNone => false
  | Node value l r =>
      if is_operand value then is_none l && is_none r
      else is_operator value && built_shape l && built_shape r
  end.

(** The tokens a build stack stands for, bottom of the stack first. *)
Fixpoint postfix_of_stack (stack : list TreeNode) : list string :=
  match stack with
  | [] => []
  | top :: stack' => postfix_of_stack stack' ++ to_postfix top
  end.

(** The tokens a build stack stands for, top of the stack first. *)
Fixpoint prefix_of_stack (stack : list TreeNode) : list string :=
  match stack with
  | [] => []
  | top :: stack' => to_prefix top ++ prefix_of_stack stack'
  end.


(* ===================================================================== *)
(** * The main program: detection and construction                        *)
(* ===================================================================== *)

(** Steps 1 and 2 of [main]: the notation is detected and the tree is
    built by the builder of that notation, an infix expression being
    converted to postfix first. *)
Definition main_build_tree (expression : list string) : result TreeNode :=
  expression_type <- detect_expression_type expression ;;
  if expression_type =? "infix" then
    postfix <- infix_to_postfix expression ;;
    build_tree_from_postfix postfix
  else if expression_type =? "prefix" then
    build_tree_from_prefix expression
  else if expression_type =? "postfix" then
    build_tree_from_postfix expression
  else Raise (ValueError "Invalid expression type detected.").

(** [' '.join(tokens)] *)
Definition join_spaces (tokens : list string) : string :=
  String.concat " " tokens.

(** Steps 1 to 4 of [main], without the printing: the three notations of
    the tree as they are shown, and the value of the evaluation. *)
Definition main_compute (expression : list string)
  : result (string * string * string * number) :=
  tree <- main_build_tree expression ;;
  let infix := to_infix tree in
  let postfix := to_postfix tree in
  let prefix := to_prefix tree in
  value <- evaluate_tree tree ;;
  Return (infix, join_spaces postfix, join_spaces prefix, value).

(* ===================================================================== *)
(** * Notions used to state further properties                            *)
(* ===================================================================== *)

(** The tokens of a tree in the order [to_infix] writes them: left
    subtree, value, right subtree. *)
Fixpoint inorder (node : TreeNode) : list string :=
  match node with
  | PyNone => []
  | Node value l r => inorder l ++ [value] ++ inorder r
  end.

(** An infix expression without parentheses: an operand, then operators
    each followed by an operand. *)
Fixpoint flat_infix_tail (expression : list string) : bool :=
  match expression with
  | [] => true
  | op :: rest =>
      match rest with
      | [] => false
      | x :: rest' => is_operator op && is_operand x && flat_infix_tail rest'
      end
  end.

Definition flat_infix (expression : list string) : bool :=
  match expression with
  | [] => false
  | x :: rest => is_operand x && flat_infix_tail rest
  end.

(** The infix tokens that a build stack and the pending operators of the
    conversion stand for, both with their top first. *)
Fixpoint infix_of_stacks (trees : list TreeNode) (ops : list string)
  : list string :=
  match trees with
  | [] => []
  | t :: trees' =>
      match ops with
      | [] => inorder t
      | o :: ops' => infix_of_stacks trees' ops' ++ [o] ++ inorder t
      end
  end.

Definition is_paren (token : string) : bool :=
  (token =? "(") || (token =? ")").

(** What the operator stack of the conversion holds. *)
Definition stack_token (token : string) : bool :=
  is_operator token || (token =? "(").

(** A token the conversion accepts. *)
Definition infix_token (token : string) : bool :=
  is_operand token || is_operator token || is_paren token.

(** What an outcome of [infix_loop] says about its arguments. *)
Definition infix_loop_outcome (expression output stack : list string)
  (r : result (list string * list string)) : Prop :=
  match r with
  | Return (output', stack') =>
      forallb stack_token stack' = true
      /\ forallb infix_token expression = true
      /\ filter is_operand output'
         = filter is_operand output ++ filter is_operand expression
      /\ Permutation
           (filter (fun t => negb (is_paren t)) (output' ++ stack'))
           (filter (fun t => negb (is_paren t)) (output ++ stack ++ expression))
  | Raise IndexError => True
  | Raise (ValueError msg) =>
      exists token,
        In token expression /\ infix_token token = false
        /\ msg = ("Invalid token in infix expression: " ++ token)%string
  | _ => False
  end.

(** A string that does not go on with an alphanumeric character. *)
Definition ends_operand (s : string) : bool :=
  match s with
  | EmptyString => true
  | String c _ => negb (isalnum_char c)
  end.

(** The kinds of error raised while a tree is constructed. *)
Definition construction_kind (kind : ErrorKind) : bool :=
  match kind with
  | InvalidToken | InsufficientOperands | MalformedExpression => true
  | _ => false
  end.

(** Every operand of the tree is a number for [float]. *)
Definition numeric_operand (token : string) : bool :=
  match float_of_alnum token with
  | Some _ => true
  | None => false
  end.

(* ===================================================================== *)
(** * Evaluation on a platform                                            *)
(* ===================================================================== *)

(** The values an evaluation reaches once [operator.pow] returns: the
    [int]s and [float]s above, and the [complex] numbers that [pow] gives
    for a negative base with a fractional exponent. *)
Inductive pyvalue : Type :=
| Real (v : number)
| Complex (re im : float).

(** What the program takes from the platform without the source fixing
    it: the outcome of [operations[op](a, b)] for [operator.pow], whose
    floats come from the C library, and for the other operators on a
    [complex] operand, a zero divisor apart.  The properties below hold
    for every platform. *)
Definition platform : Type := string -> pyvalue -> pyvalue -> result pyvalue.

Definition real_result (r : result number) : result pyvalue :=
  x <- r ;; Return (Real x).

(** Conversion of an operand of [complex] arithmetic; an [int] goes
    through [float]. *)
Definition to_complex (v : pyvalue) : result (float * float) :=
  match v with
  | Real x => re <- as_float x ;; Return (re, zero)
  | Complex re im => Return (re, im)
  end.


(** [operator.add], [operator.sub], [operator.mul] on any two values. *)
Definition arith_on (P : platform) (op : string)
  (fz : Z -> Z -> Z) (ff : float -> float -> float) (a b : pyvalue)
  : result pyvalue :=
  match a, b with
  | Real x, Real y => real_result (arith fz ff x y)
  | _, _ => P op a b
  end.

(** [operator.truediv] on any two values: with a [complex] operand both
    are converted, the left one first, and a zero divisor raises
    [ZeroDivisionError]. *)
Definition truediv_on (P : platform) (a b : pyvalue) : result pyvalue :=
  match a, b with
  | Real x, Real y => real_result (truediv x y)
  | _, _ =>
      ' (_, _) <- to_complex a ;;
      ' (re, im) <- to_complex b ;;
      if PrimFloat.eqb re zero && PrimFloat.eqb im zero
      then Raise ZeroDivisionError
      else P "/" a b
  end.

(** [operations[op]] *)
Definition operations_on (P : platform) (op : string)
  : result (pyvalue -> pyvalue -> result pyvalue) :=
  if op =? "+" then Return (arith_on P "+" Z.add PrimFloat.add)
  else if op =? "-" then Return (arith_on P "-" Z.sub PrimFloat.sub)
  else if op =? "*" then Return (arith_on P "*" Z.mul PrimFloat.mul)
  else if op =? "/" then Return (truediv_on P)
  else if op =? "^" then Return (P "^")
  else Raise (KeyError op).

(** [evaluate_tree] on a platform. *)
Fixpoint evaluate_tree_on (P : platform) (node : TreeNode) : result pyvalue :=
  match node with
  | PyNone => Return (Real (PyInt 0))
  | Node value node_left node_right =>
      if is_operand value then
        match float_of_alnum value with
        | Some x => Return (Real (PyFloat x))
        | None =>
            Raise (ValueError "Cannot evaluate expression with variables.")
        end
      else if is_operator value then
        left_value <- evaluate_tree_on P node_left ;;
        right_value <- evaluate_tree_on P node_right ;;
        op <- operations_on P value ;;
        op left_value right_value
      else Raise (ValueError "Invalid node in expression tree.")
  end.

(** A platform for examples: its [pow] is exact on the exponent 3, and
    nothing else is said of it. *)
Definition cubing_platform : platform :=
  fun op a b =>
    match a, b with
    | Real (PyFloat x), Real (PyFloat y) =>
        if (op =? "^") && PrimFloat.eqb y 3
        then Return (Real (PyFloat (x * x * x)))
        else Unmodelled
    | _, _ => Unmodelled
    end.

(* ===================================================================== *)
(** * Runs on the examples of the specification                           *)
(* ===================================================================== *)

Example build_postfix_example :
  build_tree_from_postfix ["7"; "8"; "*"; "2"; "4"; "/"; "-"]
  = Return (Node "-" (Node "*" (new_TreeNode "7") (new_TreeNode "8"))
                     (Node "/" (new_TreeNode "2") (new_TreeNode "4"))).
Proof. reflexivity. Qed.

Example float_examples :
  float_of_alnum "1e5" = Some 100000%float /\
  float_of_alnum "Infinity" = Some infinity /\
  float_of_alnum "0x10" = None /\
  float_of_alnum "1e400" = Some infinity /\
  float_of_alnum "9007199254740993" = Some 9007199254740992%float /\
  float_of_alnum "x" = None.
Proof. vm_compute. repeat split; reflexivity. Qed.

(* ===================================================================== *)
(** * Round trip between token lists and trees                            *)
(* ===================================================================== *)

Section RoundTrip.

Lemma build_postfix_loop_tokens :
  forall postfix stack stack',
    build_postfix_loop postfix stack = Return stack' ->
    postfix_of_stack stack' = postfix_of_stack stack ++ postfix.
Proof.
  induction postfix as [|token rest IH]; intros stack stack' H; simpl in H.
  - injection H as <-. now rewrite app_nil_r.
  - destruct (is_operand token).
    + apply IH in H. rewrite H. simpl. now rewrite <- app_assoc.
    + destruct (is_operator token); [|discriminate].
      destruct stack as [|r [|l below]]; simpl in H; try discriminate.
      apply IH in H. rewrite H. simpl.
      now rewrite <- !app_assoc.
Qed.

Lemma build_prefix_loop_tokens :
  forall tokens stack stack',
    build_prefix_loop tokens stack = Return stack' ->
    prefix_of_stack stack' = rev tokens ++ prefix_of_stack stack.
Proof.
  induction tokens as [|token rest IH]; intros stack stack' H; simpl in H.
  - now injection H as <-.
  - destruct (is_operand token).
    + apply IH in H. rewrite H. simpl. now rewrite <- app_assoc.
    + destruct (is_operator token); [|discriminate].
      destruct stack as [|l [|r below]]; simpl in H; try discriminate.
      apply IH in H. rewrite H. simpl.
      now rewrite <- !app_assoc.
Qed.

(** What a successful call of a builder says about its loop: the final
    stack holds the returned tree and nothing else. *)
Lemma build_tree_from_postfix_stack :
  forall postfix T,
    build_tree_from_postfix postfix = Return T ->
    build_postfix_loop postfix [] = Return [T].
Proof.
  unfold build_tree_from_postfix. intros postfix T H.
  destruct (build_postfix_loop postfix []) as [stack| |]; try discriminate.
  destruct stack as [|top [|? ?]]; simpl in H; try discriminate.
  now injection H as ->.
Qed.

Lemma build_tree_from_prefix_stack :
  forall prefix T,
    build_tree_from_prefix prefix = Return T ->
    build_prefix_loop (rev prefix) [] = Return [T].
Proof.
  unfold build_tree_from_prefix. intros prefix T H.
  destruct (build_prefix_loop (rev prefix) []) as [stack| |]; try discriminate.
  destruct stack as [|top [|? ?]]; simpl in H; try discriminate.
  now injection H as ->.
Qed.

Lemma to_postfix_build :
  forall postfix T,
    build_tree_from_postfix postfix = Return T -> to_postfix T = postfix.
Proof.
  intros postfix T H.
  apply build_tree_from_postfix_stack, build_postfix_loop_tokens in H.
  exact H.
Qed.

Lemma to_prefix_build :
  forall prefix T,
    build_tree_from_prefix prefix = Return T -> to_prefix T = prefix.
Proof.
  intros prefix T H.
  apply build_tree_from_prefix_stack, build_prefix_loop_tokens in H.
  simpl in H. now rewrite rev_involutive, !app_nil_r in H.
Qed.

(** C1: a tree [T] built from a postfix token list gives the list back
    under [to_postfix], and building from [to_postfix T] returns [T]
    again; the same holds for [build_tree_from_prefix] and [to_prefix]. *)
Theorem build_round_trip :
  forall (tokens : list string) (T : TreeNode),
    (build_tree_from_postfix tokens = Return T ->
       to_postfix T = tokens /\
       build_tree_from_postfix (to_postfix T) = Return T) /\
    (build_tree_from_prefix tokens = Return T ->
       to_prefix T = tokens /\
       build_tree_from_prefix (to_prefix T) = Return T).
Proof.
  intros tokens T. split; intros H.
  - pose proof (to_postfix_build _ _ H) as E. split; [exact E|].
    now rewrite E.
  - pose proof (to_prefix_build _ _ H) as E. split; [exact E|].
    now rewrite E.
Qed.

End RoundTrip.

Lemma build_round_trip_witness :
  (to_postfix (Node "+" (new_TreeNode "3") (new_TreeNode "4")) = ["3"; "4"; "+"]
   /\ build_tree_from_postfix
        (to_postfix (Node "+" (new_TreeNode "3") (new_TreeNode "4")))
      = Return (Node "+" (new_TreeNode "3") (new_TreeNode "4")))
  /\
  (to_prefix (Node "+" (new_TreeNode "3") (new_TreeNode "4")) = ["+"; "3"; "4"]
   /\ build_tree_from_prefix
        (to_prefix (Node "+" (new_TreeNode "3") (new_TreeNode "4")))
      = Return (Node "+" (new_TreeNode "3") (new_TreeNode "4"))).
Proof.
  split.
  - apply (proj1 (build_round_trip ["3"; "4"; "+"] _)). reflexivity.
  - apply (proj2 (build_round_trip ["+"; "3"; "4"] _)). reflexivity.
Defined.

(* ===================================================================== *)
(** * The node invariant of built trees                                   *)
(* ===================================================================== *)

Section Invariant.

Lemma is_operator_cases :
  forall token,
    is_operator token = true ->
    token = "+" \/ token = "-" \/ token = "*" \/ token = "/" \/ token = "^".
Proof.
  intros token H. unfold is_operator, str_in in H. simpl in H.
  repeat (apply orb_true_iff in H; destruct H as [H|H]);
    try discriminate; apply String.eqb_eq in H; tauto.
Qed.

(** No token is both an operator and an operand. *)
Lemma operator_not_operand :
  forall token, is_operator token = true -> is_operand token = false.
Proof.
  intros token H.
  destruct (is_operator_cases token H) as [->|[->|[->|[->| ->]]]];
    reflexivity.
Qed.

Lemma built_shape_node :
  forall node, built_shape node = true -> is_none node = false.
Proof. intros [|value l r]; simpl; [discriminate|reflexivity]. Qed.

Lemma built_shape_tree_invariant :
  forall node, built_shape node = true -> tree_invariant node = true.
Proof.
  induction node as [|value l IHl r IHr]; simpl; intros H; [discriminate|].
  unfold node_invariant.
  destruct (is_operand value) eqn:Eoperand.
  - apply andb_true_iff in H as [Hl Hr].
    destruct l; [|discriminate]. destruct r; [|discriminate].
    simpl. destruct (is_operator value) eqn:Eoperator; [|reflexivity].
    apply operator_not_operand in Eoperator. congruence.
  - apply andb_true_iff in H as [H Hr]. apply andb_true_iff in H as [Hop Hl].
    rewrite Hop, (built_shape_node _ Hl), (built_shape_node _ Hr).
    rewrite (IHl Hl), (IHr Hr). reflexivity.
Qed.

Lemma build_postfix_loop_shape :
  forall postfix stack stack',
    Forall (fun node => built_shape node = true) stack ->
    build_postfix_loop postfix stack = Return stack' ->
    Forall (fun node => built_shape node = true) stack'.
Proof.
  induction postfix as [|token rest IH]; intros stack stack' Hs H;
    simpl in H.
  - now injection H as <-.
  - destruct (is_operand token) eqn:Eoperand.
    + eapply IH; [|exact H].
      constructor; [|exact Hs]. simpl. now rewrite Eoperand.
    + destruct (is_operator token) eqn:Eoperator; [|discriminate].
      destruct stack as [|r [|l below]]; simpl in H; try discriminate.
      eapply IH; [|exact H].
      inversion Hs as [|? ? Hr Hs']; subst.
      inversion Hs' as [|? ? Hl Hbelow]; subst.
      constructor; [|exact Hbelow].
      simpl. now rewrite Eoperand, Eoperator, Hl, Hr.
Qed.

Lemma build_prefix_loop_shape :
  forall tokens stack stack',
    Forall (fun node => built_shape node = true) stack ->
    build_prefix_loop tokens stack = Return stack' ->
    Forall (fun node => built_shape node = true) stack'.
Proof.
  induction tokens as [|token rest IH]; intros stack stack' Hs H;
    simpl in H.
  - now injection H as <-.
  - destruct (is_operand token) eqn:Eoperand.
    + eapply IH; [|exact H].
      constructor; [|exact Hs]. simpl. now rewrite Eoperand.
    + destruct (is_operator token) eqn:Eoperator; [|discriminate].
      destruct stack as [|l [|r below]]; simpl in H; try discriminate.
      eapply IH; [|exact H].
      inversion Hs as [|? ? Hl Hs']; subst.
      inversion Hs' as [|? ? Hr Hbelow]; subst.
      constructor; [|exact Hbelow].
      simpl. now rewrite Eoperand, Eoperator, Hl, Hr.
Qed.

(** C2: every tree returned by [build_tree_from_postfix] or
    [build_tree_from_prefix] is a node, and at each of its nodes an
    operand value comes with two absent children and an operator value
    with two present children. *)
Theorem built_tree_invariant :
  forall (tokens : list string) (T : TreeNode),
    (build_tree_from_postfix tokens = Return T ->
       is_none T = false /\ tree_invariant T = true) /\
    (build_tree_from_prefix tokens = Return T ->
       is_none T = false /\ tree_invariant T = true).
Proof.
  intros tokens T. split; intros H.
  - apply build_tree_from_postfix_stack in H.
    apply build_postfix_loop_shape in H; [|constructor].
    inversion H as [|? ? HT _]; subst.
    split; [now apply built_shape_node|now apply built_shape_tree_invariant].
  - apply build_tree_from_prefix_stack in H.
    apply build_prefix_loop_shape in H; [|constructor].
    inversion H as [|? ? HT _]; subst.
    split; [now apply built_shape_node|now apply built_shape_tree_invariant].
Qed.

Lemma built_tree_invariant_witness :
  (is_none (Node "-" (Node "*" (new_TreeNode "7") (new_TreeNode "8"))
                     (new_TreeNode "x")) = false
   /\ tree_invariant (Node "-" (Node "*" (new_TreeNode "7") (new_TreeNode "8"))
                               (new_TreeNode "x")) = true)
  /\
  (is_none (Node "-" (Node "*" (new_TreeNode "7") (new_TreeNode "8"))
                     (new_TreeNode "x")) = false
   /\ tree_invariant (Node "-" (Node "*" (new_TreeNode "7") (new_TreeNode "8"))
                               (new_TreeNode "x")) = true).
Proof.
  split.
  - apply (proj1 (built_tree_invariant ["7"; "8"; "*"; "x"; "-"] _)).
    reflexivity.
  - apply (proj2 (built_tree_invariant ["-"; "*"; "7"; "8"; "x"] _)).
    reflexivity.
Defined.

(** The invariant is not vacuous: it rejects an operator node with a
    missing child and an operand node with a child. *)
Example tree_invariant_rejects :
  tree_invariant (Node "+" (new_TreeNode "3") PyNone) = false /\
  tree_invariant (Node "3" (new_TreeNode "4") PyNone) = false.
Proof. split; reflexivity. Qed.

End Invariant.

(* ===================================================================== *)
(** * Failures of the builders                                            *)
(* ===================================================================== *)

Section BuilderErrors.

(** The loop over a concatenation runs the loop over the first part and
    continues from the stack it reached. *)
Lemma build_postfix_loop_app :
  forall before after stack,
    build_postfix_loop (before ++ after) stack
    = (stack' <- build_postfix_loop before stack ;;
       build_postfix_loop after stack').
Proof.
  induction before as [|token rest IH]; intros after stack; simpl.
  - reflexivity.
  - destruct (is_operand token); [apply IH|].
    destruct (is_operator token); [|reflexivity].
    destruct (List.length stack <? 2)%nat; [reflexivity|].
    destruct stack as [|r [|l below]]; simpl; try reflexivity.
    apply IH.
Qed.

(** C9: when the tokens before an operator leave fewer than two items on
    the build stack, [build_tree_from_postfix] raises the [ValueError]
    "Not enough operands", the InsufficientOperands error, whatever
    follows the operator; [["3"; "+"]] is such an input. *)
Theorem build_postfix_insufficient_operands :
  forall (before after : list string) (op : string) (stack : list TreeNode),
    build_postfix_loop before [] = Return stack ->
    is_operator op = true ->
    List.length stack < 2 ->
    build_tree_from_postfix (before ++ op :: after)
    = Raise (ValueError "Invalid postfix expression. Not enough operands.")
    /\ fails_with (build_tree_from_postfix (before ++ op :: after))
                  InsufficientOperands.
Proof.
  intros before after op stack Hloop Hop Hlen.
  assert (E : build_tree_from_postfix (before ++ op :: after)
              = Raise (ValueError
                         "Invalid postfix expression. Not enough operands.")).
  { unfold build_tree_from_postfix.
    rewrite build_postfix_loop_app, Hloop. simpl.
    rewrite (operator_not_operand _ Hop), Hop.
    apply Nat.ltb_lt in Hlen. now rewrite Hlen. }
  split; [exact E|].
  rewrite E. eexists. split; reflexivity.
Qed.

Lemma build_postfix_insufficient_operands_witness :
  build_tree_from_postfix (["3"] ++ "+" :: [])
  = Raise (ValueError "Invalid postfix expression. Not enough operands.")
  /\ fails_with (build_tree_from_postfix (["3"] ++ "+" :: []))
                InsufficientOperands.
Proof.
  apply (build_postfix_insufficient_operands
           ["3"] [] "+" [new_TreeNode "3"]).
  - reflexivity.
  - reflexivity.
  - simpl. lia.
Defined.

(** C10: on the empty token list both builders raise the [ValueError]
    "Incorrect number of operands/operators", the malformed-expression
    error: no tree is returned and no other kind of error is reported. *)
Theorem build_empty_malformed :
  build_tree_from_postfix []
  = Raise (ValueError
      "Invalid postfix expression. Incorrect number of operands/operators.")
  /\ build_tree_from_prefix []
  = Raise (ValueError
      "Invalid prefix expression. Incorrect number of operands/operators.")
  /\ fails_with (build_tree_from_postfix []) MalformedExpression
  /\ fails_with (build_tree_from_prefix []) MalformedExpression.
Proof.
  repeat split; try reflexivity; eexists; split; reflexivity.
Qed.

End BuilderErrors.

(* ===================================================================== *)
(** * Detection of the notation                                           *)
(* ===================================================================== *)

Section Detection.

Lemma last_cons_default :
  forall (A : Type) (l : list A) (x y : A), last (y :: l) x = last l y.
Proof.
  induction l as [|a l IH]; intros x y; [reflexivity|].
  change (last (y :: a :: l) x) with (last (a :: l) x).
  now rewrite (IH x a), (IH y a).
Qed.

Lemma nth_error_last :
  forall (A : Type) (l : list A) (x : A),
    nth_error (x :: l) (List.length l) = Some (last l x).
Proof.
  induction l as [|y l IH]; intros x; [reflexivity|].
  change (nth_error (y :: l) (List.length l) = Some (last (y :: l) x)).
  now rewrite IH, last_cons_default.
Qed.

Lemma getitem_first :
  forall (A : Type) (l : list A) (x : A), getitem (x :: l) 0 = Return x.
Proof.
  intros A l x. unfold getitem.
  replace ((0 <? 0)%Z) with false by reflexivity.
  replace ((0 <? 0) || (Z.of_nat (List.length (x :: l)) <=? 0))%Z
    with false; [reflexivity|].
  symmetry. apply orb_false_iff. split; [reflexivity|].
  apply Z.leb_gt. simpl List.length. lia.
Qed.

Lemma getitem_last :
  forall (A : Type) (l : list A) (x : A),
    getitem (x :: l) (-1) = Return (last l x).
Proof.
  intros A l x. unfold getitem.
  replace ((-1 <? 0)%Z) with true by reflexivity.
  replace (-1 + Z.of_nat (List.length (x :: l)))%Z
    with (Z.of_nat (List.length l)) by (simpl List.length; lia).
  replace ((Z.of_nat (List.length l) <? 0)
           || (Z.of_nat (List.length (x :: l)) <=? Z.of_nat (List.length l)))%Z
    with false.
  - now rewrite Nat2Z.id, nth_error_last.
  - symmetry. apply orb_false_iff. split.
    + apply Z.ltb_ge. lia.
    + apply Z.leb_gt. simpl List.length. lia.
Qed.

Lemma detect_expression_type_cons :
  forall (first : string) (rest : list string),
    detect_expression_type (first :: rest)
    = Return (if is_operator first then "prefix"
              else if is_operator (last rest first) then "postfix"
              else "infix").
Proof.
  intros first rest. unfold detect_expression_type.
  rewrite getitem_first. simpl bind.
  destruct (is_operator first); [reflexivity|].
  rewrite getitem_last. simpl bind.
  destruct (is_operator (last rest first)); reflexivity.
Qed.

(** C8: on a non-empty token list [detect_expression_type] returns
    ["prefix"] when the first token is an operator, otherwise ["postfix"]
    when the last token is an operator, otherwise ["infix"]; the four
    examples of the specification, the single operand among them, are
    classified accordingly. *)
Theorem detect_expression_type_rule :
  (forall (first : string) (rest : list string),
     detect_expression_type (first :: rest)
     = Return (if is_operator first then "prefix"
               else if is_operator (last rest first) then "postfix"
               else "infix"))
  /\ detect_expression_type ["+"; "3"; "4"] = Return "prefix"
  /\ detect_expression_type ["3"; "4"; "+"] = Return "postfix"
  /\ detect_expression_type ["3"; "+"; "4"] = Return "infix"
  /\ detect_expression_type ["3"] = Return "infix".
Proof.
  split; [exact detect_expression_type_cons|repeat split; reflexivity].
Qed.

(** [detect_expression_type] either returns or raises [IndexError], and
    it raises exactly on the empty list. *)
Lemma detect_expression_type_outcome :
  forall expression,
    (expression = [] /\ detect_expression_type expression = Raise IndexError)
    \/ (exists kind, detect_expression_type expression = Return kind).
Proof.
  intros [|first rest]; [left; split; reflexivity|right].
  rewrite detect_expression_type_cons. eauto.
Qed.

(** The empty list: the failure is the [IndexError] of [expression[0]],
    which reports none of the error kinds. *)
Lemma detect_empty_index_error :
  detect_expression_type [] = Raise IndexError
  /\ error_kind IndexError = None.
Proof. split; reflexivity. Qed.

(** C6, as the code has it: on the empty token list
    [detect_expression_type] raises the [IndexError] of indexing the first
    token, and on no input does it fail with an EmptyExpression error:
    no emptiness check precedes the indexing. *)
Theorem detect_empty_raises_index_error :
  detect_expression_type [] = Raise IndexError
  /\ getitem ([] : list string) 0 = Raise IndexError
  /\ (forall expression : list string,
        ~ fails_with (detect_expression_type expression) EmptyExpression).
Proof.
  repeat split.
  intros expression [e [H K]].
  destruct (detect_expression_type_outcome expression)
    as [[_ E]|[kind E]]; rewrite E in H.
  - injection H as <-. discriminate K.
  - discriminate H.
Qed.

End Detection.

(* ===================================================================== *)
(** * Infix to postfix                                                    *)
(* ===================================================================== *)

Section InfixToPostfix.

(** C3: the conversion of [7 * 8 - 2 / 4]. *)
Theorem infix_to_postfix_example :
  infix_to_postfix ["7"; "*"; "8"; "-"; "2"; "/"; "4"]
  = Return ["7"; "8"; "*"; "2"; "4"; "/"; "-"].
Proof. reflexivity. Qed.

Lemma infix_loop_app :
  forall before after output stack,
    infix_loop (before ++ after) output stack
    = (' (output', stack') <- infix_loop before output stack ;;
       infix_loop after output' stack').
Proof.
  induction before as [|token rest IH]; intros after output stack; simpl.
  - reflexivity.
  - destruct (is_operand token); [apply IH|].
    destruct (is_operator token).
    { destruct (pop_operators token output stack) as [[o s]| |]; simpl;
        [apply IH|reflexivity|reflexivity]. }
    destruct (token =? "(")%string; [apply IH|].
    destruct (token =? ")")%string; [|reflexivity].
    destruct (pop_to_paren output stack) as [o s].
    destruct (pop s) as [[top s']| |]; simpl;
      [apply IH|reflexivity|reflexivity].
Qed.

Lemma pop_to_paren_without_paren :
  forall stack output,
    str_in "(" stack = false ->
    pop_to_paren output stack = (output ++ stack, []).
Proof.
  induction stack as [|top stack IH]; intros output H; cbn [pop_to_paren].
  - now rewrite app_nil_r.
  - unfold str_in in H. cbn [existsb] in H.
    apply orb_false_iff in H as [Htop H].
    rewrite String.eqb_sym in Htop. rewrite Htop. cbn [negb].
    rewrite (IH _ H). now rewrite <- app_assoc.
Qed.

Lemma pop_all_app :
  forall stack output, pop_all output stack = output ++ stack.
Proof.
  induction stack as [|top stack IH]; intros output; simpl.
  - now rewrite app_nil_r.
  - rewrite IH. now rewrite <- app_assoc.
Qed.

Lemma infix_closing_without_opening :
  forall before after output stack,
    infix_loop before [] [] = Return (output, stack) ->
    str_in "(" stack = false ->
    infix_to_postfix (before ++ ")" :: after) = Raise IndexError.
Proof.
  intros before after output stack Hloop Hparen.
  unfold infix_to_postfix. rewrite infix_loop_app, Hloop.
  cbn [bind infix_loop].
  replace (is_operand ")") with false by reflexivity.
  replace (is_operator ")") with false by reflexivity.
  replace (")" =? "(")%string with false by reflexivity.
  replace (")" =? ")")%string with true by reflexivity.
  now rewrite (pop_to_paren_without_paren _ _ Hparen).
Qed.

Lemma infix_unclosed_opening :
  forall expression output stack,
    infix_loop expression [] [] = Return (output, stack) ->
    In "(" stack ->
    infix_to_postfix expression = Return (output ++ stack)
    /\ In "(" (output ++ stack).
Proof.
  intros expression output stack Hloop Hin.
  unfold infix_to_postfix. rewrite Hloop. simpl.
  rewrite pop_all_app. split; [reflexivity|].
  apply in_or_app. now right.
Qed.

(** An unclosed parenthesis: the conversion returns, the parenthesis
    among the tokens of its result. *)
Lemma infix_unclosed_returns :
  infix_to_postfix ["("; "3"; "+"; "4"] = Return ["3"; "4"; "+"; "("].
Proof. reflexivity. Qed.

(** C5, as the code has it: a [")"] read while the operator stack holds
    no ["("] makes [infix_to_postfix] raise the [IndexError] of popping an
    empty list, which is none of the error kinds; a ["("] that is never
    closed is not detected, the conversion returns the output followed by
    the rest of the stack, the ["("] included, as on
    [["("; "3"; "+"; "4"]]. *)
Theorem infix_unbalanced_parentheses :
  (forall before after output stack,
     infix_loop before [] [] = Return (output, stack) ->
     str_in "(" stack = false ->
     infix_to_postfix (before ++ ")" :: after) = Raise IndexError
     /\ error_kind IndexError = None)
  /\ (forall expression output stack,
        infix_loop expression [] [] = Return (output, stack) ->
        In "(" stack ->
        infix_to_postfix expression = Return (output ++ stack)
        /\ In "(" (output ++ stack))
  /\ infix_to_postfix ["("; "3"; "+"; "4"] = Return ["3"; "4"; "+"; "("].
Proof.
  split; [|split].
  - intros before after output stack Hloop Hparen. split; [|reflexivity].
    exact (infix_closing_without_opening _ after _ _ Hloop Hparen).
  - exact infix_unclosed_opening.
  - reflexivity.
Qed.

Lemma infix_unbalanced_parentheses_witness :
  (infix_to_postfix (["3"; "+"; "4"] ++ ")" :: ["*"; "2"]) = Raise IndexError
   /\ error_kind IndexError = None)
  /\ (infix_to_postfix ["("; "3"; "+"; "4"]
      = Return (["3"; "4"] ++ ["+"; "("])
      /\ In "(" (["3"; "4"] ++ ["+"; "("])).
Proof.
  split.
  - apply (proj1 infix_unbalanced_parentheses
             ["3"; "+"; "4"] ["*"; "2"] ["3"; "4"] ["+"]); reflexivity.
  - apply (proj1 (proj2 infix_unbalanced_parentheses)
             ["("; "3"; "+"; "4"] ["3"; "4"] ["+"; "("]).
    + reflexivity.
    + simpl. tauto.
Defined.

End InfixToPostfix.

(* ===================================================================== *)
(** * Evaluation                                                          *)
(* ===================================================================== *)

Section Evaluation.

(** C4: evaluating the tree built from the postfix form of
    [7 * 8 - 2 / 4] returns the float 55.5. *)
Theorem evaluate_postfix_example :
  (T <- build_tree_from_postfix ["7"; "8"; "*"; "2"; "4"; "/"; "-"] ;;
   evaluate_tree T)
  = Return (PyFloat 55.5).
Proof. vm_compute. reflexivity. Qed.



(** What [evaluate_tree] returns or raises, the evaluation returns or
    raises on every platform: [evaluate_tree] is the part of the
    evaluation that no platform operation decides. *)
Lemma evaluate_tree_on_refines :
  forall (P : platform) (node : TreeNode),
    match evaluate_tree node with
    | Return v => evaluate_tree_on P node = Return (Real v)
    | Raise e => evaluate_tree_on P node = Raise e
    | Unmodelled => True
    end.
Proof.
  intros P. induction node as [|value l IHl r IHr];
    cbn [evaluate_tree evaluate_tree_on]; [reflexivity|].
  destruct (is_operand value).
  { destruct (float_of_alnum value); reflexivity. }
  destruct (is_operator value) eqn:Hop; [|reflexivity].
  destruct (evaluate_tree l) as [a| |]; rewrite ?IHl; cbn [bind];
    [|reflexivity|exact I].
  destruct (evaluate_tree r) as [b| |]; rewrite ?IHr; cbn [bind];
    [|reflexivity|exact I].
  destruct (is_operator_cases value Hop) as [->|[->|[->|[->| ->]]]].
  - change (operations "+") with (Return (arith Z.add PrimFloat.add)).
    change (operations_on P "+")
      with (Return (arith_on P "+" Z.add PrimFloat.add)).
    cbn [bind arith_on]. unfold real_result.
    destruct (arith Z.add PrimFloat.add a b); cbn [bind]; auto.
  - change (operations "-") with (Return (arith Z.sub PrimFloat.sub)).
    change (operations_on P "-")
      with (Return (arith_on P "-" Z.sub PrimFloat.sub)).
    cbn [bind arith_on]. unfold real_result.
    destruct (arith Z.sub PrimFloat.sub a b); cbn [bind]; auto.
  - change (operations "*") with (Return (arith Z.mul PrimFloat.mul)).
    change (operations_on P "*")
      with (Return (arith_on P "*" Z.mul PrimFloat.mul)).
    cbn [bind arith_on]. unfold real_result.
    destruct (arith Z.mul PrimFloat.mul a b); cbn [bind]; auto.
  - change (operations "/") with (Return truediv).
    change (operations_on P "/") with (Return (truediv_on P)).
    cbn [bind truediv_on]. unfold real_result.
    destruct (truediv a b); cbn [bind]; auto.
  - exact I.
Qed.





(** The cases of the division by zero on concrete operands: through
    [^], with an int too large for a float, with an int divisor, with
    complex operands. *)
Example division_by_zero_cases :
  evaluate_tree_on cubing_platform
    (Node "/" (Node "^" (new_TreeNode "2") (new_TreeNode "3"))
              (new_TreeNode "0"))
  = Raise ZeroDivisionError
  /\ (forall P : platform,
        truediv_on P (Real (PyInt (2 ^ 2048))) (Real (PyFloat 0))
        = Raise OverflowError
        /\ truediv_on P (Real (PyInt (2 ^ 2048))) (Complex 0 0)
           = Raise OverflowError
        /\ truediv_on P (Real (PyInt (2 ^ 2048))) (Real (PyInt 0))
           = Raise ZeroDivisionError
        /\ truediv_on P (Complex 0 1) (Real (PyFloat (-0)))
           = Raise ZeroDivisionError
        /\ truediv_on P (Real (PyFloat 1)) (Complex 0 (-0))
           = Raise ZeroDivisionError).
Proof.
  split; [vm_compute; reflexivity|].
  intros P. repeat split; vm_compute; reflexivity.
Qed.

End Evaluation.

(* ===================================================================== *)
(** * Further properties of the builders                                  *)
(* ===================================================================== *)

Section Builders.

Lemma build_prefix_loop_app :
  forall before after stack,
    build_prefix_loop (before ++ after) stack
    = (stack' <- build_prefix_loop before stack ;;
       build_prefix_loop after stack').
Proof.
  induction before as [|token rest IH]; intros after stack; simpl.
  - reflexivity.
  - destruct (is_operand token); [apply IH|].
    destruct (is_operator token); [|reflexivity].
    destruct (List.length stack <? 2)%nat; [reflexivity|].
    destruct stack as [|l [|r below]]; simpl; try reflexivity.
    apply IH.
Qed.

(** X1: a token that is neither an operand nor an operator makes the
    builders raise the "Invalid token" [ValueError] that carries the
    token, once the tokens read before it were accepted: the tokens to its
    left for [build_tree_from_postfix], the tokens to its right for
    [build_tree_from_prefix], which reads the list backwards. *)
Theorem build_invalid_token :
  forall (before after : list string) (token : string) (stack : list TreeNode),
    is_operand token = false ->
    is_operator token = false ->
    (build_postfix_loop before [] = Return stack ->
       build_tree_from_postfix (before ++ token :: after)
       = Raise (ValueError
                  ("Invalid token in postfix expression: " ++ token)%string))
    /\
    (build_prefix_loop (rev after) [] = Return stack ->
       build_tree_from_prefix (before ++ token :: after)
       = Raise (ValueError
                  ("Invalid token in prefix expression: " ++ token)%string)).
Proof.
  intros before after token stack Hoperand Hoperator. split; intros Hloop.
  - unfold build_tree_from_postfix.
    rewrite build_postfix_loop_app, Hloop. cbn [bind build_postfix_loop].
    now rewrite Hoperand, Hoperator.
  - unfold build_tree_from_prefix.
    rewrite rev_app_distr. cbn [rev]. rewrite <- app_assoc.
    rewrite build_prefix_loop_app, Hloop. cbn [bind app build_prefix_loop].
    now rewrite Hoperand, Hoperator.
Qed.

Lemma build_invalid_token_witness :
  build_tree_from_postfix (["3"; "4"] ++ "(" :: ["+"])
  = Raise (ValueError "Invalid token in postfix expression: (")
  /\ build_tree_from_prefix (["+"; "3"] ++ "$" :: ["4"])
  = Raise (ValueError "Invalid token in prefix expression: $").
Proof.
  split.
  - apply (proj1 (build_invalid_token ["3"; "4"] ["+"] "("
                    [new_TreeNode "4"; new_TreeNode "3"]
                    eq_refl eq_refl)).
    reflexivity.
  - apply (proj2 (build_invalid_token ["+"; "3"] ["4"] "$"
                    [new_TreeNode "4"] eq_refl eq_refl)).
    reflexivity.
Defined.

(** X2: [build_tree_from_prefix] raises the "Not enough operands"
    [ValueError] when the tokens to the right of an operator, which it
    reads first, leave fewer than two nodes on the stack. *)
Theorem build_prefix_insufficient_operands :
  forall (before after : list string) (op : string) (stack : list TreeNode),
    build_prefix_loop (rev after) [] = Return stack ->
    is_operator op = true ->
    List.length stack < 2 ->
    build_tree_from_prefix (before ++ op :: after)
    = Raise (ValueError "Invalid prefix expression. Not enough operands.").
Proof.
  intros before after op stack Hloop Hop Hlen.
  unfold build_tree_from_prefix.
  rewrite rev_app_distr. cbn [rev]. rewrite <- app_assoc.
  rewrite build_prefix_loop_app, Hloop. cbn [bind app build_prefix_loop].
  rewrite (operator_not_operand _ Hop), Hop.
  apply Nat.ltb_lt in Hlen. now rewrite Hlen.
Qed.

Lemma build_prefix_insufficient_operands_witness :
  build_tree_from_prefix (["7"] ++ "+" :: ["3"])
  = Raise (ValueError "Invalid prefix expression. Not enough operands.").
Proof.
  apply (build_prefix_insufficient_operands ["7"] ["3"] "+"
           [new_TreeNode "3"]).
  - reflexivity.
  - reflexivity.
  - simpl. lia.
Defined.

(** Reading the postfix tokens of a well-shaped tree pushes that tree. *)
Lemma build_postfix_loop_tree :
  forall T,
    built_shape T = true ->
    forall rest stack,
      build_postfix_loop (to_postfix T ++ rest) stack
      = build_postfix_loop rest (T :: stack).
Proof.
  induction T as [|value l IHl r IHr]; intros H rest stack;
    cbn [built_shape] in H; [discriminate|].
  cbn [to_postfix].
  destruct (is_operand value) eqn:Eoperand.
  - apply andb_true_iff in H as [Hl Hr].
    destruct l; [|discriminate]. destruct r; [|discriminate].
    cbn [to_postfix app build_postfix_loop]. now rewrite Eoperand.
  - apply andb_true_iff in H as [H Hr]. apply andb_true_iff in H as [Hop Hl].
    rewrite <- !app_assoc. rewrite (IHl Hl), (IHr Hr).
    cbn [app build_postfix_loop]. now rewrite Eoperand, Hop.
Qed.

Lemma build_prefix_loop_tree :
  forall T,
    built_shape T = true ->
    forall rest stack,
      build_prefix_loop (rev (to_prefix T) ++ rest) stack
      = build_prefix_loop rest (T :: stack).
Proof.
  induction T as [|value l IHl r IHr]; intros H rest stack;
    cbn [built_shape] in H; [discriminate|].
  cbn [to_prefix app rev].
  destruct (is_operand value) eqn:Eoperand.
  - apply andb_true_iff in H as [Hl Hr].
    destruct l; [|discriminate]. destruct r; [|discriminate].
    cbn [to_prefix app rev build_prefix_loop]. now rewrite Eoperand.
  - apply andb_true_iff in H as [H Hr]. apply andb_true_iff in H as [Hop Hl].
    rewrite rev_app_distr, <- !app_assoc. rewrite (IHr Hr), (IHl Hl).
    cbn [app build_prefix_loop]. now rewrite Eoperand, Hop.
Qed.

Lemma build_postfix_of_shape :
  forall T,
    built_shape T = true -> build_tree_from_postfix (to_postfix T) = Return T.
Proof.
  intros T H. unfold build_tree_from_postfix.
  rewrite <- (app_nil_r (to_postfix T)), (build_postfix_loop_tree T H).
  reflexivity.
Qed.

Lemma build_prefix_of_shape :
  forall T,
    built_shape T = true -> build_tree_from_prefix (to_prefix T) = Return T.
Proof.
  intros T H. unfold build_tree_from_prefix.
  rewrite <- (app_nil_r (rev (to_prefix T))), (build_prefix_loop_tree T H).
  reflexivity.
Qed.

Lemma build_postfix_shape :
  forall tokens T,
    build_tree_from_postfix tokens = Return T -> built_shape T = true.
Proof.
  intros tokens T H. apply build_tree_from_postfix_stack in H.
  apply build_postfix_loop_shape in H; [|constructor].
  now inversion H.
Qed.

Lemma build_prefix_shape :
  forall tokens T,
    build_tree_from_prefix tokens = Return T -> built_shape T = true.
Proof.
  intros tokens T H. apply build_tree_from_prefix_stack in H.
  apply build_prefix_loop_shape in H; [|constructor].
  now inversion H.
Qed.

(** X3: the builders invert the conversions on every tree of operand
    leaves and two-child operator nodes, whether a builder made it or
    not: building from [to_postfix T] and from [to_prefix T] returns
    [T]. *)
Theorem build_inverts_conversion :
  forall T : TreeNode,
    built_shape T = true ->
    build_tree_from_postfix (to_postfix T) = Return T
    /\ build_tree_from_prefix (to_prefix T) = Return T.
Proof.
  intros T H. split;
    [now apply build_postfix_of_shape|now apply build_prefix_of_shape].
Qed.

Lemma build_inverts_conversion_witness :
  build_tree_from_postfix
    (to_postfix (Node "^" (new_TreeNode "a") (Node "-" (new_TreeNode "b")
                                                       (new_TreeNode "2"))))
  = Return (Node "^" (new_TreeNode "a") (Node "-" (new_TreeNode "b")
                                                  (new_TreeNode "2")))
  /\ build_tree_from_prefix
    (to_prefix (Node "^" (new_TreeNode "a") (Node "-" (new_TreeNode "b")
                                                      (new_TreeNode "2"))))
  = Return (Node "^" (new_TreeNode "a") (Node "-" (new_TreeNode "b")
                                                  (new_TreeNode "2"))).
Proof.
  apply (build_inverts_conversion
           (Node "^" (new_TreeNode "a") (Node "-" (new_TreeNode "b")
                                                  (new_TreeNode "2")))).
  reflexivity.
Defined.

(** X4: the two notations describe the same trees: the prefix form of a
    tree built from postfix tokens builds the same tree, and the postfix
    form of a tree built from prefix tokens does. *)
Theorem build_across_notations :
  forall (tokens : list string) (T : TreeNode),
    (build_tree_from_postfix tokens = Return T ->
       build_tree_from_prefix (to_prefix T) = Return T) /\
    (build_tree_from_prefix tokens = Return T ->
       build_tree_from_postfix (to_postfix T) = Return T).
Proof.
  intros tokens T. split; intros H.
  - apply build_prefix_of_shape. now apply (build_postfix_shape tokens).
  - apply build_postfix_of_shape. now apply (build_prefix_shape tokens).
Qed.

Lemma build_across_notations_witness :
  build_tree_from_prefix
    (to_prefix (Node "-" (Node "*" (new_TreeNode "7") (new_TreeNode "8"))
                         (new_TreeNode "x")))
  = Return (Node "-" (Node "*" (new_TreeNode "7") (new_TreeNode "8"))
                     (new_TreeNode "x"))
  /\ build_tree_from_postfix
    (to_postfix (Node "-" (Node "*" (new_TreeNode "7") (new_TreeNode "8"))
                          (new_TreeNode "x")))
  = Return (Node "-" (Node "*" (new_TreeNode "7") (new_TreeNode "8"))
                     (new_TreeNode "x")).
Proof.
  split.
  - apply (proj1 (build_across_notations ["7"; "8"; "*"; "x"; "-"] _)).
    reflexivity.
  - apply (proj2 (build_across_notations ["-"; "*"; "7"; "8"; "x"] _)).
    reflexivity.
Defined.

End Builders.

(* ===================================================================== *)
(** * Tokens of accepted expressions                                      *)
(* ===================================================================== *)

Section Tokens.

(** X5: no token is both an operator and an operand, and the
    parentheses of the infix notation are neither. *)
Theorem token_classes_disjoint :
  (forall token : string, is_operator token && is_operand token = false)
  /\ is_operator "(" = false /\ is_operand "(" = false
  /\ is_operator ")" = false /\ is_operand ")" = false.
Proof.
  split; [|repeat split; reflexivity].
  intros token. destruct (is_operator token) eqn:E; [|reflexivity].
  now rewrite (operator_not_operand _ E).
Qed.

Lemma operand_not_operator :
  forall token, is_operand token = true -> is_operator token = false.
Proof.
  intros token H. destruct (is_operator token) eqn:E; [|reflexivity].
  apply operator_not_operand in E. congruence.
Qed.

Lemma filter_to_prefix_length :
  forall (f : string -> bool) T,
    List.length (filter f (to_prefix T))
    = List.length (filter f (to_postfix T)).
Proof.
  intros f. induction T as [|value l IHl r IHr]; [reflexivity|].
  cbn [to_prefix to_postfix app filter].
  rewrite !filter_app, !length_app. cbn [filter].
  destruct (f value); cbn [List.length]; rewrite ?length_app; lia.
Qed.

Lemma to_prefix_length :
  forall T, List.length (to_prefix T) = List.length (to_postfix T).
Proof.
  induction T as [|value l IHl r IHr]; [reflexivity|].
  cbn [to_prefix to_postfix app List.length].
  rewrite !length_app. cbn [List.length]. lia.
Qed.

Lemma built_shape_counts :
  forall T,
    built_shape T = true ->
    List.length (filter is_operand (to_postfix T))
    = S (List.length (filter is_operator (to_postfix T)))
    /\ List.length (to_postfix T)
       = List.length (filter is_operand (to_postfix T))
         + List.length (filter is_operator (to_postfix T)).
Proof.
  induction T as [|value l IHl r IHr]; intros H; cbn [built_shape] in H;
    [discriminate|].
  cbn [to_postfix].
  destruct (is_operand value) eqn:Eoperand.
  - apply andb_true_iff in H as [Hl Hr].
    destruct l; [|discriminate]. destruct r; [|discriminate].
    cbn [to_postfix app filter].
    rewrite Eoperand, (operand_not_operator _ Eoperand). split; reflexivity.
  - apply andb_true_iff in H as [H Hr]. apply andb_true_iff in H as [Hop Hl].
    destruct (IHl Hl) as [Hl1 Hl2]. destruct (IHr Hr) as [Hr1 Hr2].
    rewrite !filter_app, !length_app. cbn [filter].
    rewrite Eoperand, Hop. cbn [List.length]. lia.
Qed.

(** X6: a token list accepted by a builder has one operand more than it
    has operators and nothing else, so its length is odd. *)
Theorem build_token_counts :
  forall (tokens : list string) (T : TreeNode),
    build_tree_from_postfix tokens = Return T
    \/ build_tree_from_prefix tokens = Return T ->
    List.length (filter is_operand tokens)
    = List.length (filter is_operator tokens) + 1
    /\ List.length tokens = 2 * List.length (filter is_operator tokens) + 1.
Proof.
  intros tokens T [H|H].
  - pose proof (build_postfix_shape _ _ H) as Hshape.
    apply to_postfix_build in H. subst tokens.
    destruct (built_shape_counts T Hshape) as [H1 H2]. lia.
  - pose proof (build_prefix_shape _ _ H) as Hshape.
    apply to_prefix_build in H. subst tokens.
    rewrite !filter_to_prefix_length, to_prefix_length.
    destruct (built_shape_counts T Hshape) as [H1 H2]. lia.
Qed.

Lemma build_token_counts_witness :
  List.length (filter is_operand ["7"; "8"; "*"; "x"; "-"])
  = List.length (filter is_operator ["7"; "8"; "*"; "x"; "-"]) + 1
  /\ List.length ["7"; "8"; "*"; "x"; "-"]
     = 2 * List.length (filter is_operator ["7"; "8"; "*"; "x"; "-"]) + 1.
Proof.
  apply (build_token_counts ["7"; "8"; "*"; "x"; "-"]
           (Node "-" (Node "*" (new_TreeNode "7") (new_TreeNode "8"))
                     (new_TreeNode "x"))).
  left. reflexivity.
Defined.

(** The outcomes of the loops: a stack, or one of two [ValueError]s. *)
Lemma build_postfix_loop_outcome :
  forall tokens stack,
    (exists stack', build_postfix_loop tokens stack = Return stack')
    \/ build_postfix_loop tokens stack
       = Raise (ValueError "Invalid postfix expression. Not enough operands.")
    \/ (exists token,
          In token tokens /\ is_operand token = false
          /\ is_operator token = false
          /\ build_postfix_loop tokens stack
             = Raise (ValueError
                 ("Invalid token in postfix expression: " ++ token)%string)).
Proof.
  induction tokens as [|token rest IH]; intros stack;
    cbn [build_postfix_loop].
  - left. eauto.
  - assert (Hrest : forall stack0 : list TreeNode,
      (exists stack', build_postfix_loop rest stack0 = Return stack')
      \/ build_postfix_loop rest stack0
         = Raise (ValueError "Invalid postfix expression. Not enough operands.")
      \/ (exists token0,
            In token0 (token :: rest) /\ is_operand token0 = false
            /\ is_operator token0 = false
            /\ build_postfix_loop rest stack0
               = Raise (ValueError
                   ("Invalid token in postfix expression: " ++ token0)%string))).
    { intros stack0. destruct (IH stack0) as [H|[H|(t & Hin & H)]];
        [now left|now right; left|right; right].
      exists t. split; [now right|exact H]. }
    destruct (is_operand token) eqn:Eoperand; [apply Hrest|].
    destruct (is_operator token) eqn:Eoperator.
    + destruct stack as [|r [|l below]]; cbn; try (right; left; reflexivity).
      apply Hrest.
    + right. right. exists token. repeat split; try assumption. now left.
Qed.

Lemma build_prefix_loop_outcome :
  forall tokens stack,
    (exists stack', build_prefix_loop tokens stack = Return stack')
    \/ build_prefix_loop tokens stack
       = Raise (ValueError "Invalid prefix expression. Not enough operands.")
    \/ (exists token,
          In token tokens /\ is_operand token = false
          /\ is_operator token = false
          /\ build_prefix_loop tokens stack
             = Raise (ValueError
                 ("Invalid token in prefix expression: " ++ token)%string)).
Proof.
  induction tokens as [|token rest IH]; intros stack;
    cbn [build_prefix_loop].
  - left. eauto.
  - assert (Hrest : forall stack0 : list TreeNode,
      (exists stack', build_prefix_loop rest stack0 = Return stack')
      \/ build_prefix_loop rest stack0
         = Raise (ValueError "Invalid prefix expression. Not enough operands.")
      \/ (exists token0,
            In token0 (token :: rest) /\ is_operand token0 = false
            /\ is_operator token0 = false
            /\ build_prefix_loop rest stack0
               = Raise (ValueError
                   ("Invalid token in prefix expression: " ++ token0)%string))).
    { intros stack0. destruct (IH stack0) as [H|[H|(t & Hin & H)]];
        [now left|now right; left|right; right].
      exists t. split; [now right|exact H]. }
    destruct (is_operand token) eqn:Eoperand; [apply Hrest|].
    destruct (is_operator token) eqn:Eoperator.
    + destruct stack as [|l [|r below]]; cbn; try (right; left; reflexivity).
      apply Hrest.
    + right. right. exists token. repeat split; try assumption. now left.
Qed.

(** X7: the builders return a tree or raise one of their three
    [ValueError]s, the "Invalid token" one for a token of the input that
    is neither operand nor operator; the pops are guarded, so no
    [IndexError] or other exception escapes. *)
Theorem build_outcomes :
  forall tokens : list string,
    ((exists T, build_tree_from_postfix tokens = Return T)
     \/ build_tree_from_postfix tokens
        = Raise (ValueError "Invalid postfix expression. Not enough operands.")
     \/ build_tree_from_postfix tokens
        = Raise (ValueError
            "Invalid postfix expression. Incorrect number of operands/operators.")
     \/ (exists token,
           In token tokens /\ is_operand token = false
           /\ is_operator token = false
           /\ build_tree_from_postfix tokens
              = Raise (ValueError
                  ("Invalid token in postfix expression: " ++ token)%string)))
    /\
    ((exists T, build_tree_from_prefix tokens = Return T)
     \/ build_tree_from_prefix tokens
        = Raise (ValueError "Invalid prefix expression. Not enough operands.")
     \/ build_tree_from_prefix tokens
        = Raise (ValueError
            "Invalid prefix expression. Incorrect number of operands/operators.")
     \/ (exists token,
           In token tokens /\ is_operand token = false
           /\ is_operator token = false
           /\ build_tree_from_prefix tokens
              = Raise (ValueError
                  ("Invalid token in prefix expression: " ++ token)%string))).
Proof.
  intros tokens. split.
  - unfold build_tree_from_postfix.
    destruct (build_postfix_loop_outcome tokens [])
      as [[stack H]|[H|(t & Hin & Ho & Hp & H)]]; rewrite H; cbn [bind].
    + destruct stack as [|top [|? ?]]; cbn; eauto.
    + now right; left.
    + right. right. right. exists t. auto.
  - unfold build_tree_from_prefix.
    destruct (build_prefix_loop_outcome (rev tokens) [])
      as [[stack H]|[H|(t & Hin & Ho & Hp & H)]]; rewrite H; cbn [bind].
    + destruct stack as [|top [|? ?]]; cbn; eauto.
    + now right; left.
    + right. right. right. exists t. apply in_rev in Hin. auto.
Qed.

End Tokens.

(* ===================================================================== *)
(** * Further properties of the conversion from infix                     *)
(* ===================================================================== *)

Section Conversion.

Lemma Permutation_filter_compat :
  forall (A : Type) (f : A -> bool) (l l' : list A),
    Permutation l l' -> Permutation (filter f l) (filter f l').
Proof.
  intros A f l l' H. induction H as [|x l l' H IH|x y l|l l' l'' H1 IH1 H2 IH2];
    cbn [filter].
  - constructor.
  - destruct (f x); [now constructor|exact IH].
  - destruct (f x), (f y); try reflexivity. constructor.
  - now transitivity (filter f l').
Qed.

Lemma stack_token_not_operand :
  forall token, stack_token token = true -> is_operand token = false.
Proof.
  intros token H. unfold stack_token in H.
  apply orb_true_iff in H as [H|H].
  - now apply operator_not_operand.
  - apply String.eqb_eq in H. now subst.
Qed.

Lemma stack_tokens_no_operand :
  forall stack,
    forallb stack_token stack = true -> filter is_operand stack = [].
Proof.
  induction stack as [|top stack IH]; intros H; [reflexivity|].
  cbn [forallb] in H. apply andb_true_iff in H as [Htop H].
  cbn [filter]. now rewrite (stack_token_not_operand _ Htop), IH.
Qed.

Lemma yields_to_operators :
  forall token top,
    is_operator token = true -> is_operator top = true ->
    exists go, yields_to token top = Return go.
Proof.
  intros token top Ht Htop.
  destruct (is_operator_cases _ Ht) as [->|[->|[->|[->| ->]]]];
    destruct (is_operator_cases _ Htop) as [->|[->|[->|[->| ->]]]];
    eexists; reflexivity.
Qed.

(** The operator loop moves a part of the stack, top first, to the end
    of the output. *)
Lemma pop_operators_moves :
  forall token stack output,
    is_operator token = true ->
    forallb stack_token stack = true ->
    exists moved stack',
      pop_operators token output stack = Return (output ++ moved, stack')
      /\ stack = moved ++ stack'
      /\ forallb is_operator moved = true.
Proof.
  intros token. induction stack as [|top stack IH]; intros output Ht Hs;
    cbn [pop_operators].
  - exists [], []. now rewrite app_nil_r.
  - cbn [forallb] in Hs. apply andb_true_iff in Hs as [Htop Hs].
    destruct (top =? "(")%string eqn:Eparen; cbn [negb].
    + exists [], (top :: stack). now rewrite app_nil_r.
    + unfold stack_token in Htop. rewrite Eparen, orb_false_r in Htop.
      destruct (yields_to_operators token top Ht Htop) as [go Hgo].
      rewrite Hgo. cbn [bind]. destruct go.
      * destruct (IH (output ++ [top]) Ht Hs) as (moved & stack' & H & E & F).
        exists (top :: moved), stack'. rewrite H, <- app_assoc.
        cbn [app forallb]. rewrite Htop, F. now subst.
      * exists [], (top :: stack). now rewrite app_nil_r.
Qed.

(** The loop of a closing parenthesis moves the stack down to the first
    opening parenthesis. *)
Lemma pop_to_paren_moves :
  forall stack output,
    exists moved stack',
      pop_to_paren output stack = (output ++ moved, stack')
      /\ stack = moved ++ stack'
      /\ (stack' = [] \/ exists below, stack' = "(" :: below).
Proof.
  induction stack as [|top stack IH]; intros output; cbn [pop_to_paren].
  - exists [], []. rewrite app_nil_r. auto.
  - destruct (top =? "(")%string eqn:Eparen; cbn [negb].
    + apply String.eqb_eq in Eparen. subst top.
      exists [], ("(" :: stack). rewrite app_nil_r. eauto.
    + destruct (IH (output ++ [top])) as (moved & stack' & H & E & F).
      exists (top :: moved), stack'. rewrite H, <- app_assoc.
      cbn [app]. now subst.
Qed.

Lemma infix_loop_outcome_cons :
  forall token rest output stack output0 stack0 r,
    infix_loop_outcome rest output0 stack0 r ->
    infix_token token = true ->
    filter is_operand output0
    = filter is_operand output ++ filter is_operand [token] ->
    Permutation
      (filter (fun t => negb (is_paren t)) (output0 ++ stack0 ++ rest))
      (filter (fun t => negb (is_paren t)) (output ++ stack ++ token :: rest)) ->
    infix_loop_outcome (token :: rest) output stack r.
Proof.
  intros token rest output stack output0 stack0 r H Htoken Hfilter Hperm.
  destruct r as [[output' stack']|e|]; cbn [infix_loop_outcome] in *.
  - destruct H as (Hs & Hvalid & Hoperands & Hp).
    cbn [forallb]. rewrite Htoken. repeat split; try assumption.
    + rewrite Hoperands, Hfilter, <- app_assoc.
      change (token :: rest) with ([token] ++ rest). now rewrite filter_app.
    + now transitivity
        (filter (fun t => negb (is_paren t)) (output0 ++ stack0 ++ rest)).
  - destruct e; try exact H.
    destruct H as (t & Hin & H). exists t. split; [now right|exact H].
  - exact H.
Qed.

Lemma infix_loop_spec :
  forall expression output stack,
    forallb stack_token stack = true ->
    infix_loop_outcome expression output stack
      (infix_loop expression output stack).
Proof.
  induction expression as [|token rest IH]; intros output stack Hs;
    cbn [infix_loop].
  - cbn [infix_loop_outcome forallb filter].
    rewrite !app_nil_r. repeat split; auto.
  - destruct (is_operand token) eqn:Eoperand.
    { apply infix_loop_outcome_cons
        with (output0 := output ++ [token]) (stack0 := stack).
      - now apply IH.
      - unfold infix_token. now rewrite Eoperand.
      - now rewrite filter_app.
      - apply Permutation_filter_compat. rewrite <- app_assoc.
        apply Permutation_app_head. cbn [app]. apply Permutation_middle. }
    destruct (is_operator token) eqn:Eoperator.
    { destruct (pop_operators_moves token stack output Eoperator Hs)
        as (moved & stack' & H & E & F).
      rewrite H. cbn [bind].
      assert (Hs' : forallb stack_token stack' = true).
      { subst stack. rewrite forallb_app in Hs.
        now apply andb_true_iff in Hs. }
      assert (Hmoved : filter is_operand moved = []).
      { apply stack_tokens_no_operand. subst stack.
        rewrite forallb_app in Hs. now apply andb_true_iff in Hs. }
      apply infix_loop_outcome_cons
        with (output0 := output ++ moved) (stack0 := token :: stack').
      - apply IH. cbn [forallb]. unfold stack_token at 1.
        now rewrite Eoperator, Hs'.
      - unfold infix_token. now rewrite Eoperator, orb_true_r.
      - rewrite filter_app, Hmoved. cbn [filter]. now rewrite Eoperand.
      - apply Permutation_filter_compat. subst stack.
        rewrite <- !app_assoc. do 2 apply Permutation_app_head.
        cbn [app]. apply Permutation_middle. }
    destruct (token =? "(")%string eqn:Eopen.
    { apply String.eqb_eq in Eopen. subst token.
      apply infix_loop_outcome_cons
        with (output0 := output) (stack0 := "(" :: stack).
      - apply IH. cbn [forallb]. now rewrite Hs.
      - reflexivity.
      - cbn [filter]. rewrite Eoperand. now rewrite app_nil_r.
      - apply Permutation_filter_compat. apply Permutation_app_head.
        cbn [app]. apply Permutation_middle. }
    destruct (token =? ")")%string eqn:Eclose.
    { apply String.eqb_eq in Eclose. subst token.
      destruct (pop_to_paren_moves stack output)
        as (moved & stack' & H & E & F).
      rewrite H.
      destruct F as [->|[below ->]]; cbn [pop bind];
        [exact I|].
      assert (Hs' : forallb stack_token below = true).
      { subst stack. rewrite forallb_app in Hs.
        apply andb_true_iff in Hs as [_ Hs]. cbn [forallb] in Hs.
        now apply andb_true_iff in Hs. }
      assert (Hmoved : filter is_operand moved = []).
      { apply stack_tokens_no_operand. subst stack.
        rewrite forallb_app in Hs. now apply andb_true_iff in Hs. }
      apply infix_loop_outcome_cons
        with (output0 := output ++ moved) (stack0 := below).
      - now apply IH.
      - reflexivity.
      - rewrite filter_app, Hmoved. cbn [filter]. now rewrite Eoperand.
      - subst stack. rewrite <- !app_assoc. rewrite !filter_app.
        cbn [app filter]. replace (negb (is_paren "(")) with false by reflexivity.
        replace (negb (is_paren ")")) with false by reflexivity.
        rewrite ?filter_app. reflexivity. }
    cbn [infix_loop_outcome]. exists token. split; [now left|].
    split; [|reflexivity].
    unfold infix_token, is_paren.
    now rewrite Eoperand, Eoperator, Eopen, Eclose.
Qed.

(** X8: [infix_to_postfix] returns, or raises the [IndexError] of a
    closing parenthesis without an opening one, or raises the "Invalid
    token" [ValueError] for a token of the input that is no operand,
    operator or parenthesis; the precedence and associativity tables are
    never asked for a key they lack. *)
Theorem infix_to_postfix_outcomes :
  forall expression : list string,
    (exists output, infix_to_postfix expression = Return output)
    \/ infix_to_postfix expression = Raise IndexError
    \/ (exists token,
          In token expression /\ infix_token token = false
          /\ infix_to_postfix expression
             = Raise (ValueError
                 ("Invalid token in infix expression: " ++ token)%string)).
Proof.
  intros expression. unfold infix_to_postfix.
  pose proof (infix_loop_spec expression [] [] eq_refl) as H.
  destruct (infix_loop expression [] []) as [[output stack]|e|];
    cbn [infix_loop_outcome bind] in *.
  - left. eauto.
  - destruct e; try contradiction.
    + destruct H as (t & Hin & Hbad & ->). right. right. eauto.
    + now right; left.
  - contradiction.
Qed.

(** X9: a conversion that returns keeps the operands in the order of the
    input. *)
Theorem infix_to_postfix_operands :
  forall expression output : list string,
    infix_to_postfix expression = Return output ->
    filter is_operand output = filter is_operand expression.
Proof.
  intros expression output H. unfold infix_to_postfix in H.
  pose proof (infix_loop_spec expression [] [] eq_refl) as Hspec.
  destruct (infix_loop expression [] []) as [[output' stack']|e|];
    cbn [infix_loop_outcome bind] in *; try discriminate.
  injection H as <-. destruct Hspec as (Hs & _ & Hoperands & _).
  rewrite pop_all_app, filter_app, (stack_tokens_no_operand _ Hs).
  now rewrite app_nil_r, Hoperands.
Qed.

Lemma infix_to_postfix_operands_witness :
  filter is_operand ["a"; "b"; "c"; "*"; "+"]
  = filter is_operand ["a"; "+"; "("; "b"; "*"; "c"; ")"].
Proof.
  apply (infix_to_postfix_operands
           ["a"; "+"; "("; "b"; "*"; "c"; ")"] ["a"; "b"; "c"; "*"; "+"]).
  reflexivity.
Defined.

(** X10: a conversion returns only when every token of the input is an
    operand, an operator or a parenthesis, and its output is then a
    rearrangement of the operands and operators of the input: nothing but
    parentheses is dropped and nothing is added. *)
Theorem infix_to_postfix_permutation :
  forall expression output : list string,
    infix_to_postfix expression = Return output ->
    forallb infix_token expression = true
    /\ Permutation (filter (fun t => negb (is_paren t)) output)
                   (filter (fun t => negb (is_paren t)) expression).
Proof.
  intros expression output H. unfold infix_to_postfix in H.
  pose proof (infix_loop_spec expression [] [] eq_refl) as Hspec.
  destruct (infix_loop expression [] []) as [[output' stack']|e|];
    cbn [infix_loop_outcome bind] in *; try discriminate.
  injection H as <-. destruct Hspec as (_ & Hvalid & _ & Hperm).
  split; [exact Hvalid|]. now rewrite pop_all_app.
Qed.

Lemma infix_to_postfix_permutation_witness :
  forallb infix_token ["("; "a"; "+"; "b"; ")"; "^"; "2"] = true
  /\ Permutation
       (filter (fun t => negb (is_paren t)) ["a"; "b"; "+"; "2"; "^"])
       (filter (fun t => negb (is_paren t))
               ["("; "a"; "+"; "b"; ")"; "^"; "2"]).
Proof.
  apply (infix_to_postfix_permutation
           ["("; "a"; "+"; "b"; ")"; "^"; "2"] ["a"; "b"; "+"; "2"; "^"]).
  reflexivity.
Defined.

End Conversion.

(* ===================================================================== *)
(** * From an infix expression to its tree                                *)
(* ===================================================================== *)

Section InfixTrees.

Lemma infix_loop_operand :
  forall token rest output stack,
    is_operand token = true ->
    infix_loop (token :: rest) output stack
    = infix_loop rest (output ++ [token]) stack.
Proof. intros token rest output stack H. cbn [infix_loop]. now rewrite H. Qed.

Lemma infix_loop_operator :
  forall token rest output stack,
    is_operator token = true ->
    infix_loop (token :: rest) output stack
    = (' (output', stack') <- pop_operators token output stack ;;
       infix_loop rest output' (token :: stack')).
Proof.
  intros token rest output stack H. cbn [infix_loop].
  now rewrite (operator_not_operand _ H), H.
Qed.

Lemma infix_three_operands :
  forall a b c o1 o2 : string,
    is_operand a = true -> is_operand b = true -> is_operand c = true ->
    is_operator o1 = true -> is_operator o2 = true ->
    infix_to_postfix [a; o1; b; o2; c]
    = (go <- yields_to o2 o1 ;;
       Return (if (go : bool) then [a; b; o1; c; o2] else [a; b; c; o2; o1])).
Proof.
  intros a b c o1 o2 Ha Hb Hc H1 H2. unfold infix_to_postfix.
  rewrite (infix_loop_operand a), (infix_loop_operator o1) by assumption.
  cbn [pop_operators bind app].
  rewrite (infix_loop_operand b), (infix_loop_operator o2) by assumption.
  cbn [pop_operators app].
  replace (negb (o1 =? "(")%string) with true.
  2:{ destruct (is_operator_cases _ H1) as [->|[->|[->|[->| ->]]]];
      reflexivity. }
  destruct (yields_to_operators o2 o1 H2 H1) as [go Hgo]. rewrite Hgo.
  cbn [bind]. destruct go; cbn [pop_operators bind app];
    rewrite (infix_loop_operand c) by assumption; reflexivity.
Qed.

(** X11: for operands [a], [b], [c] and operators [o1], [o2], the tree of
    the infix expression [a o1 b o2 c] applies [o1] first, as
    [(a o1 b) o2 c], unless [o2] has the higher precedence or both are
    [^]; then it is [a o1 (b o2 c)].  Precedences are 1 for [+ -], 2 for
    [* /] and 3 for [^]. *)
Theorem infix_two_operators :
  forall a b c o1 o2 : string,
    is_operand a = true -> is_operand b = true -> is_operand c = true ->
    is_operator o1 = true -> is_operator o2 = true ->
    let level := fun o : string =>
      if (o =? "^")%string then 3
      else if ((o =? "*") || (o =? "/"))%string then 2 else 1 in
    (postfix <- infix_to_postfix [a; o1; b; o2; c] ;;
     build_tree_from_postfix postfix)
    = Return
        (if (level o1 <? level o2)%nat || ((o1 =? "^") && (o2 =? "^"))%string
         then Node o1 (new_TreeNode a) (Node o2 (new_TreeNode b) (new_TreeNode c))
         else Node o2 (Node o1 (new_TreeNode a) (new_TreeNode b)) (new_TreeNode c)).
Proof.
  intros a b c o1 o2 Ha Hb Hc H1 H2 level.
  rewrite (infix_three_operands a b c o1 o2 Ha Hb Hc H1 H2).
  assert (Hleft : build_tree_from_postfix [a; b; o1; c; o2]
                  = Return (Node o2 (Node o1 (new_TreeNode a) (new_TreeNode b))
                                    (new_TreeNode c))).
  { apply (build_postfix_of_shape
             (Node o2 (Node o1 (new_TreeNode a) (new_TreeNode b))
                      (new_TreeNode c))).
    cbn [built_shape new_TreeNode is_none andb].
    now rewrite (operator_not_operand _ H1), (operator_not_operand _ H2),
      H1, H2, Ha, Hb, Hc. }
  assert (Hright : build_tree_from_postfix [a; b; c; o2; o1]
                   = Return (Node o1 (new_TreeNode a)
                                     (Node o2 (new_TreeNode b) (new_TreeNode c)))).
  { apply (build_postfix_of_shape
             (Node o1 (new_TreeNode a)
                      (Node o2 (new_TreeNode b) (new_TreeNode c)))).
    cbn [built_shape new_TreeNode is_none andb].
    now rewrite (operator_not_operand _ H1), (operator_not_operand _ H2),
      H1, H2, Ha, Hb, Hc. }
  subst level.
  destruct (is_operator_cases _ H1) as [->|[->|[->|[->| ->]]]];
    destruct (is_operator_cases _ H2) as [->|[->|[->|[->| ->]]]];
    cbn [yields_to precedence associativity bind String.eqb Ascii.eqb
         Bool.eqb Nat.ltb Nat.leb Nat.eqb orb andb];
    first [exact Hleft|exact Hright].
Qed.

Lemma infix_two_operators_witness :
  (postfix <- infix_to_postfix ["a"; "-"; "b"; "*"; "c"] ;;
   build_tree_from_postfix postfix)
  = Return (Node "-" (new_TreeNode "a")
                     (Node "*" (new_TreeNode "b") (new_TreeNode "c"))).
Proof.
  apply (infix_two_operators "a" "b" "c" "-" "*"); reflexivity.
Defined.

Lemma build_postfix_loop_snoc_operand :
  forall output token S,
    build_postfix_loop output [] = Return S ->
    is_operand token = true ->
    build_postfix_loop (output ++ [token]) [] = Return (new_TreeNode token :: S).
Proof.
  intros output token S H Ht.
  rewrite build_postfix_loop_app, H. cbn [bind build_postfix_loop].
  now rewrite Ht.
Qed.

Lemma build_postfix_loop_snoc_operator :
  forall output token l r S,
    build_postfix_loop output [] = Return (r :: l :: S) ->
    is_operator token = true ->
    build_postfix_loop (output ++ [token]) [] = Return (Node token l r :: S).
Proof.
  intros output token l r S H Ht.
  rewrite build_postfix_loop_app, H. cbn [bind build_postfix_loop].
  now rewrite (operator_not_operand _ Ht), Ht.
Qed.

Lemma infix_of_stacks_merge :
  forall S stack op l r,
    infix_of_stacks (Node op l r :: S) stack
    = infix_of_stacks (r :: l :: S) (op :: stack).
Proof.
  intros S stack op l r. cbn [infix_of_stacks inorder].
  destruct stack as [|o ops]; now rewrite <- ?app_assoc.
Qed.

(** The operator loop, seen from the trees its output builds. *)
Lemma pop_operators_builds :
  forall token stack output S,
    is_operator token = true ->
    forallb is_operator stack = true ->
    build_postfix_loop output [] = Return S ->
    List.length S = Datatypes.S (List.length stack) ->
    exists output' stack' S',
      pop_operators token output stack = Return (output', stack')
      /\ forallb is_operator stack' = true
      /\ build_postfix_loop output' [] = Return S'
      /\ List.length S' = Datatypes.S (List.length stack')
      /\ infix_of_stacks S' stack' = infix_of_stacks S stack.
Proof.
  intros token. induction stack as [|top stack IH];
    intros output S Ht Hs Hbuild Hlen; cbn [pop_operators].
  - exists output, [], S. auto.
  - cbn [forallb] in Hs. apply andb_true_iff in Hs as [Htop Hs].
    replace (negb (top =? "(")%string) with true.
    2:{ destruct (is_operator_cases _ Htop) as [->|[->|[->|[->| ->]]]];
        reflexivity. }
    destruct (yields_to_operators token top Ht Htop) as [go Hgo].
    rewrite Hgo. cbn [bind]. destruct go.
    + destruct S as [|r [|l below]]; cbn [List.length] in Hlen;
        try discriminate.
      destruct (IH (output ++ [top]) (Node top l r :: below) Ht Hs)
        as (output' & stack' & S' & H & Hs' & Hb & Hl & Hi).
      * now apply build_postfix_loop_snoc_operator.
      * cbn [List.length] in *. lia.
      * exists output', stack', S'. repeat split; try assumption.
        now rewrite Hi, infix_of_stacks_merge.
    + exists output, (top :: stack), S. cbn [forallb].
      rewrite Htop, Hs. auto.
Qed.

(** The final loop, seen from the trees its output builds. *)
Lemma pop_all_builds :
  forall stack output S,
    forallb is_operator stack = true ->
    build_postfix_loop output [] = Return S ->
    List.length S = Datatypes.S (List.length stack) ->
    exists T,
      build_postfix_loop (pop_all output stack) [] = Return [T]
      /\ inorder T = infix_of_stacks S stack.
Proof.
  induction stack as [|top stack IH]; intros output S Hs Hbuild Hlen;
    cbn [pop_all].
  - destruct S as [|T [|? ?]]; cbn [List.length] in Hlen; try discriminate.
    exists T. auto.
  - cbn [forallb] in Hs. apply andb_true_iff in Hs as [Htop Hs].
    destruct S as [|r [|l below]]; cbn [List.length] in Hlen;
      try discriminate.
    destruct (IH (output ++ [top]) (Node top l r :: below) Hs)
      as (T & H & Hi).
    + now apply build_postfix_loop_snoc_operator.
    + cbn [List.length] in *. lia.
    + exists T. split; [exact H|].
      now rewrite Hi, infix_of_stacks_merge.
Qed.

(** The conversion loop over operators each followed by an operand. *)
Lemma infix_loop_flat_tail :
  forall n tail output stack S,
    List.length tail <= n ->
    flat_infix_tail tail = true ->
    forallb is_operator stack = true ->
    build_postfix_loop output [] = Return S ->
    List.length S = Datatypes.S (List.length stack) ->
    exists output' stack' S',
      infix_loop tail output stack = Return (output', stack')
      /\ forallb is_operator stack' = true
      /\ build_postfix_loop output' [] = Return S'
      /\ List.length S' = Datatypes.S (List.length stack')
      /\ infix_of_stacks S' stack' = infix_of_stacks S stack ++ tail.
Proof.
  induction n as [|n IH]; intros tail output stack S Hn Hflat Hs Hbuild Hlen.
  - destruct tail; [|cbn [List.length] in Hn; lia].
    exists output, stack, S. rewrite app_nil_r. auto.
  - destruct tail as [|op [|x rest]]; cbn [flat_infix_tail] in Hflat;
      try discriminate.
    + exists output, stack, S. rewrite app_nil_r. auto.
    + apply andb_true_iff in Hflat as [Hflat Hrest].
      apply andb_true_iff in Hflat as [Hop Hx].
      rewrite (infix_loop_operator op) by assumption.
      destruct (pop_operators_builds op stack output S Hop Hs Hbuild Hlen)
        as (output1 & stack1 & S1 & H1 & Hs1 & Hb1 & Hl1 & Hi1).
      rewrite H1. cbn [bind].
      rewrite (infix_loop_operand x) by assumption.
      destruct (IH rest (output1 ++ [x]) (op :: stack1)
                  (new_TreeNode x :: S1))
        as (output' & stack' & S' & H & Hs' & Hb & Hl & Hi).
      * cbn [List.length] in Hn. lia.
      * exact Hrest.
      * cbn [forallb]. now rewrite Hop, Hs1.
      * now apply build_postfix_loop_snoc_operand.
      * cbn [List.length]. lia.
      * exists output', stack', S'. repeat split; try assumption.
        rewrite Hi. cbn [infix_of_stacks inorder new_TreeNode app].
        rewrite Hi1, <- !app_assoc. reflexivity.
Qed.

Lemma flat_infix_tail_last :
  forall n tail x,
    List.length tail <= n ->
    flat_infix_tail tail = true -> is_operand x = true ->
    is_operand (last tail x) = true.
Proof.
  induction n as [|n IH]; intros tail x Hn Hflat Hx.
  - destruct tail; [exact Hx|cbn [List.length] in Hn; lia].
  - destruct tail as [|op [|y rest]]; cbn [flat_infix_tail] in Hflat;
      try discriminate; [exact Hx|].
    apply andb_true_iff in Hflat as [Hflat Hrest].
    apply andb_true_iff in Hflat as [_ Hy].
    change (last (op :: y :: rest) x) with (last (y :: rest) x).
    rewrite last_cons_default. apply (IH rest y); try assumption.
    cbn [List.length] in Hn. lia.
Qed.

(** X12: an infix expression without parentheses, an operand followed by
    operators each with its operand, is detected as infix and converted to
    a postfix list that [build_tree_from_postfix] accepts; the tokens of
    the tree, read left subtree, value, right subtree, are the expression
    again. *)
Theorem flat_infix_tree :
  forall expression : list string,
    flat_infix expression = true ->
    exists (postfix : list string) (T : TreeNode),
      infix_to_postfix expression = Return postfix
      /\ build_tree_from_postfix postfix = Return T
      /\ main_build_tree expression = Return T
      /\ inorder T = expression.
Proof.
  intros [|x tail] Hflat; cbn [flat_infix] in Hflat; [discriminate|].
  apply andb_true_iff in Hflat as [Hx Htail].
  destruct (infix_loop_flat_tail (List.length tail) tail [x] []
              [new_TreeNode x] (le_n _) Htail eq_refl)
    as (output' & stack' & S' & H & Hs' & Hb & Hl & Hi).
  { apply (build_postfix_loop_snoc_operand [] x []); [reflexivity|exact Hx]. }
  { reflexivity. }
  destruct (pop_all_builds stack' output' S' Hs' Hb Hl) as (T & HT & Hin).
  assert (Hconv : infix_to_postfix (x :: tail)
                  = Return (pop_all output' stack')).
  { unfold infix_to_postfix. rewrite (infix_loop_operand x) by assumption.
    cbn [app]. now rewrite H. }
  assert (Hbuild : build_tree_from_postfix (pop_all output' stack')
                   = Return T).
  { unfold build_tree_from_postfix. now rewrite HT. }
  exists (pop_all output' stack'), T. repeat split; try assumption.
  - unfold main_build_tree. rewrite detect_expression_type_cons.
    rewrite (operand_not_operator _ Hx).
    rewrite (operand_not_operator _
               (flat_infix_tail_last _ tail x (le_n _) Htail Hx)).
    cbn [bind]. replace ("infix" =? "infix")%string with true by reflexivity.
    rewrite Hconv. cbn [bind]. exact Hbuild.
  - rewrite Hin, Hi. reflexivity.
Qed.

Lemma flat_infix_tree_witness :
  exists (postfix : list string) (T : TreeNode),
    infix_to_postfix ["7"; "*"; "8"; "-"; "2"; "/"; "4"] = Return postfix
    /\ build_tree_from_postfix postfix = Return T
    /\ main_build_tree ["7"; "*"; "8"; "-"; "2"; "/"; "4"] = Return T
    /\ inorder T = ["7"; "*"; "8"; "-"; "2"; "/"; "4"].
Proof.
  apply (flat_infix_tree ["7"; "*"; "8"; "-"; "2"; "/"; "4"]).
  reflexivity.
Defined.

End InfixTrees.

(* ===================================================================== *)
(** * The main program on prefix and postfix expressions                  *)
(* ===================================================================== *)

Section MainProgram.

Lemma built_shape_postfix_head :
  forall T,
    built_shape T = true ->
    exists token rest,
      to_postfix T = token :: rest /\ is_operand token = true.
Proof.
  induction T as [|value l IHl r IHr]; intros H; cbn [built_shape] in H;
    [discriminate|].
  destruct (is_operand value) eqn:Eoperand.
  - apply andb_true_iff in H as [Hl Hr].
    destruct l; [|discriminate]. destruct r; [|discriminate].
    exists value, []. auto.
  - apply andb_true_iff in H as [H Hr]. apply andb_true_iff in H as [Hop Hl].
    destruct (IHl Hl) as (token & rest & E & Ht).
    exists token, (rest ++ to_postfix r ++ [value]).
    cbn [to_postfix]. now rewrite E.
Qed.

Lemma main_build_tree_operand :
  forall value,
    is_operand value = true ->
    main_build_tree [value] = Return (new_TreeNode value).
Proof.
  intros value H. unfold main_build_tree.
  rewrite detect_expression_type_cons. cbn [last].
  rewrite (operand_not_operator _ H). cbn [bind].
  replace ("infix" =? "infix")%string with true by reflexivity.
  unfold infix_to_postfix. rewrite (infix_loop_operand value) by exact H.
  cbn [infix_loop bind pop_all app].
  unfold build_tree_from_postfix. cbn [build_postfix_loop]. now rewrite H.
Qed.

(** X13: [main] builds from every expression that one of the builders
    accepts the tree that builder returns: an accepted postfix list is
    detected as postfix and an accepted prefix list as prefix, except a
    single operand, which is detected as infix and gives the same leaf. *)
Theorem main_build_tree_accepted :
  forall (tokens : list string) (T : TreeNode),
    build_tree_from_postfix tokens = Return T
    \/ build_tree_from_prefix tokens = Return T ->
    main_build_tree tokens = Return T.
Proof.
  intros tokens T H.
  assert (Hshape : built_shape T = true).
  { destruct H as [H|H];
      [now apply (build_postfix_shape tokens)
      |now apply (build_prefix_shape tokens)]. }
  destruct T as [|value l r]; [discriminate|].
  cbn [built_shape] in Hshape.
  destruct (is_operand value) eqn:Eoperand.
  - apply andb_true_iff in Hshape as [Hl Hr].
    destruct l; [|discriminate]. destruct r; [|discriminate].
    assert (E : tokens = [value]).
    { destruct H as [H|H];
        [now apply to_postfix_build in H|now apply to_prefix_build in H]. }
    subst tokens. now apply main_build_tree_operand.
  - apply andb_true_iff in Hshape as [Hs Hr].
    apply andb_true_iff in Hs as [Hop Hl].
    destruct H as [H|H].
    + pose proof (to_postfix_build _ _ H) as E. cbn [to_postfix] in E.
      destruct (built_shape_postfix_head l Hl) as (first & rest & El & Hfirst).
      rewrite El in E. cbn [app] in E.
      unfold main_build_tree. rewrite <- E at 1.
      rewrite detect_expression_type_cons.
      rewrite (operand_not_operator _ Hfirst).
      rewrite app_assoc, last_last, Hop. cbn [bind].
      replace ("postfix" =? "infix")%string with false by reflexivity.
      replace ("postfix" =? "prefix")%string with false by reflexivity.
      replace ("postfix" =? "postfix")%string with true by reflexivity.
      exact H.
    + pose proof (to_prefix_build _ _ H) as E. cbn [to_prefix app] in E.
      unfold main_build_tree. rewrite <- E at 1.
      rewrite detect_expression_type_cons, Hop. cbn [bind].
      replace ("prefix" =? "infix")%string with false by reflexivity.
      replace ("prefix" =? "prefix")%string with true by reflexivity.
      exact H.
Qed.

Lemma main_build_tree_accepted_witness :
  main_build_tree ["-"; "*"; "7"; "8"; "x"]
  = Return (Node "-" (Node "*" (new_TreeNode "7") (new_TreeNode "8"))
                     (new_TreeNode "x")).
Proof.
  apply (main_build_tree_accepted ["-"; "*"; "7"; "8"; "x"]).
  right. reflexivity.
Defined.

End MainProgram.

(* ===================================================================== *)
(** * Evaluation of built trees                                           *)
(* ===================================================================== *)

Section BuiltEvaluation.

Lemma forallb_to_prefix :
  forall (f : string -> bool) T,
    forallb f (to_prefix T) = forallb f (to_postfix T).
Proof.
  intros f. induction T as [|value l IHl r IHr]; [reflexivity|].
  cbn [to_prefix to_postfix app forallb].
  rewrite !forallb_app, IHl, IHr. cbn [forallb].
  destruct (f value), (forallb f (to_postfix l)), (forallb f (to_postfix r));
    reflexivity.
Qed.

(** The tokens of a tree a builder returned, whichever builder it was:
    a property of all the tokens read holds of the postfix tokens of the
    tree. *)
Lemma built_tokens :
  forall (f : string -> bool) tokens T,
    build_tree_from_postfix tokens = Return T
    \/ build_tree_from_prefix tokens = Return T ->
    built_shape T = true
    /\ forallb f (to_postfix T) = forallb f tokens.
Proof.
  intros f tokens T [H|H].
  - split; [now apply (build_postfix_shape tokens)|].
    now rewrite (to_postfix_build _ _ H).
  - split; [now apply (build_prefix_shape tokens)|].
    now rewrite <- forallb_to_prefix, (to_prefix_build _ _ H).
Qed.

Lemma evaluate_shape_outcome :
  forall T,
    built_shape T = true ->
    forallb (fun t => negb (t =? "^")%string) (to_postfix T) = true ->
    (exists x, evaluate_tree T = Return (PyFloat x))
    \/ evaluate_tree T
       = Raise (ValueError "Cannot evaluate expression with variables.")
    \/ evaluate_tree T = Raise ZeroDivisionError.
Proof.
  induction T as [|value l IHl r IHr]; intros H Hpow; cbn [built_shape] in H;
    [discriminate|].
  cbn [evaluate_tree].
  destruct (is_operand value) eqn:Eoperand.
  { destruct (float_of_alnum value); [left; eauto|right; left; reflexivity]. }
  apply andb_true_iff in H as [H Hr]. apply andb_true_iff in H as [Hop Hl].
  rewrite Hop. cbn [to_postfix] in Hpow.
  rewrite !forallb_app in Hpow.
  apply andb_true_iff in Hpow as [Hpl Hpow].
  apply andb_true_iff in Hpow as [Hpr Hvalue].
  cbn [forallb] in Hvalue. rewrite andb_true_r in Hvalue.
  destruct (IHl Hl Hpl) as [[x Hx]|[Hx|Hx]]; rewrite Hx; cbn [bind];
    [|right; left; reflexivity|right; right; reflexivity].
  destruct (IHr Hr Hpr) as [[y Hy]|[Hy|Hy]]; rewrite Hy; cbn [bind];
    [|right; left; reflexivity|right; right; reflexivity].
  destruct (is_operator_cases _ Hop) as [->|[->|[->|[->| ->]]]].
  - left. eexists. reflexivity.
  - left. eexists. reflexivity.
  - left. eexists. reflexivity.
  - change (operations "/") with (Return truediv).
    cbn [bind truediv as_float].
    destruct (PrimFloat.eqb y zero);
      [right; right; reflexivity|left; eexists; reflexivity].
  - discriminate Hvalue.
Qed.

(** X14: on a tree a builder returned from tokens without [^], the
    evaluation returns a float, or raises the "Cannot evaluate expression
    with variables" [ValueError], or raises [ZeroDivisionError]; it never
    reaches the "Invalid node in expression tree" error, and never returns
    the int of an absent node. *)
Theorem evaluate_built_outcomes :
  forall (tokens : list string) (T : TreeNode),
    build_tree_from_postfix tokens = Return T
    \/ build_tree_from_prefix tokens = Return T ->
    forallb (fun t => negb (t =? "^")%string) tokens = true ->
    (exists x, evaluate_tree T = Return (PyFloat x))
    \/ evaluate_tree T
       = Raise (ValueError "Cannot evaluate expression with variables.")
    \/ evaluate_tree T = Raise ZeroDivisionError.
Proof.
  intros tokens T H Hpow.
  destruct (built_tokens (fun t => negb (t =? "^")%string) tokens T H)
    as [Hshape E].
  apply evaluate_shape_outcome; [exact Hshape|now rewrite E].
Qed.

Lemma evaluate_built_outcomes_witness :
  (exists x, evaluate_tree (Node "/" (new_TreeNode "1") (new_TreeNode "x"))
             = Return (PyFloat x))
  \/ evaluate_tree (Node "/" (new_TreeNode "1") (new_TreeNode "x"))
     = Raise (ValueError "Cannot evaluate expression with variables.")
  \/ evaluate_tree (Node "/" (new_TreeNode "1") (new_TreeNode "x"))
     = Raise ZeroDivisionError.
Proof.
  apply (evaluate_built_outcomes ["1"; "x"; "/"]).
  - left. reflexivity.
  - reflexivity.
Defined.

Lemma evaluate_shape_arithmetic :
  forall T,
    built_shape T = true ->
    forallb (fun t => negb ((t =? "/") || (t =? "^"))%string) (to_postfix T)
    = true ->
    (forallb (fun t => is_operator t || numeric_operand t) (to_postfix T)
     = true ->
     exists x, evaluate_tree T = Return (PyFloat x))
    /\
    (forallb (fun t => is_operator t || numeric_operand t) (to_postfix T)
     = false ->
     evaluate_tree T
     = Raise (ValueError "Cannot evaluate expression with variables.")).
Proof.
  induction T as [|value l IHl r IHr]; intros H Hops; cbn [built_shape] in H;
    [discriminate|].
  cbn [evaluate_tree].
  destruct (is_operand value) eqn:Eoperand.
  { apply andb_true_iff in H as [Hl Hr].
    destruct l; [|discriminate]. destruct r; [|discriminate].
    cbn [to_postfix app forallb]. unfold numeric_operand.
    rewrite (operand_not_operator _ Eoperand). cbn [orb].
    destruct (float_of_alnum value); split; intros E;
      try discriminate; eauto. }
  apply andb_true_iff in H as [H Hr]. apply andb_true_iff in H as [Hop Hl].
  rewrite Hop. cbn [to_postfix] in *.
  rewrite !forallb_app in Hops.
  apply andb_true_iff in Hops as [Hol Hops].
  apply andb_true_iff in Hops as [Hor Hvalue].
  cbn [forallb] in Hvalue. rewrite andb_true_r in Hvalue.
  rewrite !forallb_app. cbn [forallb]. rewrite Hop. cbn [orb andb].
  rewrite andb_true_r.
  destruct (IHl Hl Hol) as [IHl1 IHl2]. destruct (IHr Hr Hor) as [IHr1 IHr2].
  destruct (forallb (fun t => is_operator t || numeric_operand t)
              (to_postfix l)).
  - destruct (IHl1 eq_refl) as [x Hx]. rewrite Hx. cbn [bind andb].
    destruct (forallb (fun t => is_operator t || numeric_operand t)
                (to_postfix r)).
    + destruct (IHr1 eq_refl) as [y Hy]. rewrite Hy. cbn [bind].
      split; [intros _|discriminate].
      destruct (is_operator_cases _ Hop) as [->|[->|[->|[->| ->]]]];
        try discriminate Hvalue; eexists; reflexivity.
    + rewrite (IHr2 eq_refl). cbn [bind]. split; [discriminate|reflexivity].
  - rewrite (IHl2 eq_refl). cbn [bind andb].
    split; [discriminate|reflexivity].
Qed.

(** X15: on a tree a builder returned from tokens whose operators are
    among [+ - *], the evaluation returns a float when [float] accepts
    every operand, and raises the "Cannot evaluate expression with
    variables" [ValueError] when it rejects one of them. *)
Theorem evaluate_built_arithmetic :
  forall (tokens : list string) (T : TreeNode),
    build_tree_from_postfix tokens = Return T
    \/ build_tree_from_prefix tokens = Return T ->
    forallb (fun t => negb ((t =? "/") || (t =? "^"))%string) tokens = true ->
    (forallb (fun t => is_operator t || numeric_operand t) tokens = true ->
     exists x, evaluate_tree T = Return (PyFloat x))
    /\
    (forallb (fun t => is_operator t || numeric_operand t) tokens = false ->
     evaluate_tree T
     = Raise (ValueError "Cannot evaluate expression with variables.")).
Proof.
  intros tokens T H Hops.
  destruct (built_tokens
              (fun t => negb ((t =? "/") || (t =? "^"))%string) tokens T H)
    as [Hshape E1].
  destruct (built_tokens
              (fun t => is_operator t || numeric_operand t) tokens T H)
    as [_ E2].
  rewrite <- E1 in Hops. rewrite <- E2.
  now apply evaluate_shape_arithmetic.
Qed.

Lemma evaluate_built_arithmetic_witness :
  (exists x,
     evaluate_tree (Node "-" (Node "*" (new_TreeNode "7") (new_TreeNode "8"))
                             (new_TreeNode "1e3"))
     = Return (PyFloat x))
  /\ evaluate_tree (Node "-" (Node "*" (new_TreeNode "7") (new_TreeNode "y"))
                             (new_TreeNode "8"))
     = Raise (ValueError "Cannot evaluate expression with variables.").
Proof.
  split.
  - apply (proj1 (evaluate_built_arithmetic ["7"; "8"; "*"; "1e3"; "-"] _
                    (or_introl eq_refl) eq_refl)).
    vm_compute. reflexivity.
  - apply (proj2 (evaluate_built_arithmetic ["-"; "*"; "7"; "y"; "8"] _
                    (or_intror eq_refl) eq_refl)).
    vm_compute. reflexivity.
Defined.

End BuiltEvaluation.

(* ===================================================================== *)
(** * The infix notation of a tree                                        *)
(* ===================================================================== *)

Section InfixNotation.

Lemma string_app_assoc :
  forall a b c : string, ((a ++ b) ++ c = a ++ (b ++ c))%string.
Proof.
  induction a as [|x a IH]; intros b c; cbn [append]; [reflexivity|].
  now rewrite IH.
Qed.

Lemma string_app_nil_r : forall a : string, (a ++ "" = a)%string.
Proof.
  induction a as [|x a IH]; cbn [append]; [reflexivity|now rewrite IH].
Qed.

(** Two alphanumeric strings, each followed by something that does not
    go on with an alphanumeric character, are found again in the whole. *)
Lemma alnum_strings_split :
  forall v1 v2 s1 s2 : string,
    all_chars isalnum_char v1 = true ->
    all_chars isalnum_char v2 = true ->
    ends_operand s1 = true -> ends_operand s2 = true ->
    (v1 ++ s1 = v2 ++ s2)%string ->
    v1 = v2 /\ s1 = s2.
Proof.
  induction v1 as [|c1 v1 IH]; intros [|c2 v2] s1 s2 H1 H2 Hs1 Hs2 H;
    cbn [append all_chars] in *.
  - auto.
  - subst s1. cbn [ends_operand] in Hs1.
    apply andb_true_iff in H2 as [H2 _]. rewrite H2 in Hs1. discriminate.
  - subst s2. cbn [ends_operand] in Hs2.
    apply andb_true_iff in H1 as [H1 _]. rewrite H1 in Hs2. discriminate.
  - injection H as -> H.
    apply andb_true_iff in H1 as [_ H1]. apply andb_true_iff in H2 as [_ H2].
    destruct (IH v2 s1 s2 H1 H2 Hs1 Hs2 H) as [-> ->]. auto.
Qed.

Lemma operand_chars :
  forall value,
    is_operand value = true ->
    all_chars isalnum_char value = true
    /\ exists c rest, value = String c rest /\ isalnum_char c = true.
Proof.
  intros [|c rest] H; [discriminate|].
  unfold is_operand, isalnum in H. split; [exact H|].
  cbn [all_chars] in H. apply andb_true_iff in H as [H _]. eauto.
Qed.

Lemma to_infix_unique_prefix :
  forall T1,
    built_shape T1 = true ->
    forall T2 s1 s2,
      built_shape T2 = true ->
      ends_operand s1 = true -> ends_operand s2 = true ->
      (to_infix T1 ++ s1 = to_infix T2 ++ s2)%string ->
      T1 = T2 /\ s1 = s2.
Proof.
  induction T1 as [|v1 l1 IHl r1 IHr]; intros H1; cbn [built_shape] in H1;
    [discriminate|].
  intros [|v2 l2 r2] s1 s2 H2 Hs1 Hs2 H; cbn [built_shape] in H2;
    [discriminate|].
  cbn [to_infix] in H.
  destruct (is_operand v1) eqn:E1; destruct (is_operand v2) eqn:E2.
  - (* two operands *)
    rewrite (operand_not_operator _ E1), (operand_not_operator _ E2) in H.
    apply andb_true_iff in H1 as [Hl1 Hr1].
    apply andb_true_iff in H2 as [Hl2 Hr2].
    destruct l1; [|discriminate]. destruct r1; [|discriminate].
    destruct l2; [|discriminate]. destruct r2; [|discriminate].
    destruct (operand_chars _ E1) as [A1 _].
    destruct (operand_chars _ E2) as [A2 _].
    destruct (alnum_strings_split v1 v2 s1 s2 A1 A2 Hs1 Hs2 H) as [-> ->].
    auto.
  - (* an operand and an operator node *)
    apply andb_true_iff in H2 as [H2 _]. apply andb_true_iff in H2 as [O2 _].
    rewrite (operand_not_operator _ E1), O2 in H.
    destruct (operand_chars _ E1) as [_ (c & rest & -> & Hc)].
    cbn [append] in H. injection H as -> _. discriminate Hc.
  - (* an operator node and an operand *)
    apply andb_true_iff in H1 as [H1 _]. apply andb_true_iff in H1 as [O1 _].
    rewrite (operand_not_operator _ E2), O1 in H.
    destruct (operand_chars _ E2) as [_ (c & rest & -> & Hc)].
    cbn [append] in H. injection H as <- _. discriminate Hc.
  - (* two operator nodes *)
    apply andb_true_iff in H1 as [H1 Hr1]. apply andb_true_iff in H1 as [O1 Hl1].
    apply andb_true_iff in H2 as [H2 Hr2]. apply andb_true_iff in H2 as [O2 Hl2].
    rewrite O1, O2 in H. rewrite !string_app_assoc in H.
    cbn [append] in H. injection H as H.
    apply (IHl Hl1 l2) in H; [|exact Hl2|reflexivity|reflexivity].
    destruct H as [-> H]. injection H as H.
    assert (Hv : v1 = v2
                 /\ (to_infix r1 ++ String ")" s1
                     = to_infix r2 ++ String ")" s2)%string).
    { destruct (is_operator_cases _ O1) as [->|[->|[->|[->| ->]]]];
        destruct (is_operator_cases _ O2) as [->|[->|[->|[->| ->]]]];
        cbn [append] in H; try discriminate H;
        injection H as H; auto. }
    destruct Hv as [-> Hr].
    apply (IHr Hr1 r2) in Hr; [|exact Hr2|reflexivity|reflexivity].
    destruct Hr as [-> Hr]. injection Hr as ->. auto.
Qed.

(** X16: [to_infix] is unambiguous on trees of operand leaves and
    two-child operator nodes: two such trees with the same infix string
    are the same tree. *)
Theorem to_infix_injective :
  forall T1 T2 : TreeNode,
    built_shape T1 = true -> built_shape T2 = true ->
    to_infix T1 = to_infix T2 ->
    T1 = T2.
Proof.
  intros T1 T2 H1 H2 H.
  apply (to_infix_unique_prefix T1 H1 T2 "" "" H2 eq_refl eq_refl).
  now rewrite !string_app_nil_r.
Qed.

Lemma to_infix_injective_witness :
  Node "-" (new_TreeNode "a") (Node "-" (new_TreeNode "b") (new_TreeNode "c"))
  = Node "-" (new_TreeNode "a") (Node "-" (new_TreeNode "b") (new_TreeNode "c")).
Proof.
  apply (to_infix_injective
           (Node "-" (new_TreeNode "a")
                     (Node "-" (new_TreeNode "b") (new_TreeNode "c")))
           (Node "-" (new_TreeNode "a")
                     (Node "-" (new_TreeNode "b") (new_TreeNode "c"))));
    reflexivity.
Defined.

(** The grouping shows in the string: the two trees over [a - b - c]
    are written differently. *)
Example to_infix_grouping :
  to_infix (Node "-" (Node "-" (new_TreeNode "a") (new_TreeNode "b"))
                     (new_TreeNode "c"))
  = "((a - b) - c)"
  /\ to_infix (Node "-" (new_TreeNode "a")
                        (Node "-" (new_TreeNode "b") (new_TreeNode "c")))
     = "(a - (b - c))".
Proof. split; reflexivity. Qed.

End InfixNotation.

(* ===================================================================== *)
(** * The failures of the main program                                    *)
(* ===================================================================== *)

Section MainOutcomes.

Lemma invalid_token_kind :
  forall token,
    error_kind (ValueError
      ("Invalid token in postfix expression: " ++ token)%string)
    = Some InvalidToken
    /\ error_kind (ValueError
         ("Invalid token in prefix expression: " ++ token)%string)
       = Some InvalidToken
    /\ error_kind (ValueError
         ("Invalid token in infix expression: " ++ token)%string)
       = Some InvalidToken.
Proof. intros token. repeat split; cbn; destruct token; reflexivity. Qed.

Lemma build_tree_from_postfix_kind :
  forall tokens,
    (exists T, build_tree_from_postfix tokens = Return T)
    \/ (exists msg kind,
          build_tree_from_postfix tokens = Raise (ValueError msg)
          /\ error_kind (ValueError msg) = Some kind
          /\ construction_kind kind = true).
Proof.
  intros tokens. unfold build_tree_from_postfix.
  destruct (build_postfix_loop_outcome tokens [])
    as [[stack H]|[H|(t & _ & _ & _ & H)]]; rewrite H; cbn [bind].
  - destruct stack as [|top [|? ?]]; cbn;
      [right|left; eauto|right]; do 2 eexists; repeat split; reflexivity.
  - right. do 2 eexists. repeat split; reflexivity.
  - right. do 2 eexists.
    split; [reflexivity|]. split; [apply invalid_token_kind|reflexivity].
Qed.

Lemma build_tree_from_prefix_kind :
  forall tokens,
    (exists T, build_tree_from_prefix tokens = Return T)
    \/ (exists msg kind,
          build_tree_from_prefix tokens = Raise (ValueError msg)
          /\ error_kind (ValueError msg) = Some kind
          /\ construction_kind kind = true).
Proof.
  intros tokens. unfold build_tree_from_prefix.
  destruct (build_prefix_loop_outcome (rev tokens) [])
    as [[stack H]|[H|(t & _ & _ & _ & H)]]; rewrite H; cbn [bind].
  - destruct stack as [|top [|? ?]]; cbn;
      [right|left; eauto|right]; do 2 eexists; repeat split; reflexivity.
  - right. do 2 eexists. repeat split; reflexivity.
  - right. do 2 eexists.
    split; [reflexivity|]. split; [apply invalid_token_kind|reflexivity].
Qed.

Lemma in_to_prefix :
  forall T token, In token (to_prefix T) -> In token (to_postfix T).
Proof.
  induction T as [|value l IHl r IHr]; intros token H; [exact H|].
  cbn [to_prefix to_postfix app] in *.
  rewrite !in_app_iff. cbn [In].
  destruct H as [H|H]; [now right; right; left|].
  apply in_app_iff in H as [H|H]; [left; now apply IHl|right; left; now apply IHr].
Qed.

Lemma in_to_postfix :
  forall T token, In token (to_postfix T) -> In token (to_prefix T).
Proof.
  induction T as [|value l IHl r IHr]; intros token H; [exact H|].
  cbn [to_prefix to_postfix app] in *.
  rewrite !in_app_iff in H. cbn [In] in *. rewrite in_app_iff.
  destruct H as [H|[H|[H|[]]]];
    [right; left; now apply IHl|right; right; now apply IHr|now left].
Qed.

Lemma built_shape_no_paren :
  forall T token,
    built_shape T = true -> In token (to_postfix T) -> is_paren token = false.
Proof.
  induction T as [|value l IHl r IHr]; intros token H Hin;
    cbn [built_shape] in H; [discriminate|].
  cbn [to_postfix] in Hin. rewrite !in_app_iff in Hin. cbn [In] in Hin.
  destruct (is_operand value) eqn:Eoperand.
  - apply andb_true_iff in H as [Hl Hr].
    destruct l; [|discriminate]. destruct r; [|discriminate].
    destruct Hin as [[]|[[]|[<-|[]]]].
    unfold is_paren.
    destruct (value =? "(")%string eqn:E1;
      [apply String.eqb_eq in E1; subst; discriminate|].
    destruct (value =? ")")%string eqn:E2;
      [apply String.eqb_eq in E2; subst; discriminate|reflexivity].
  - apply andb_true_iff in H as [H Hr]. apply andb_true_iff in H as [Hop Hl].
    destruct Hin as [Hin|[Hin|[<-|[]]]]; [now apply IHl|now apply IHr|].
    destruct (is_operator_cases _ Hop) as [->|[->|[->|[->| ->]]]];
      reflexivity.
Qed.

(** The outcomes of steps 1 and 2 of [main]. *)
Lemma main_build_tree_outcome :
  forall expression,
    (exists T,
       main_build_tree expression = Return T
       /\ built_shape T = true
       /\ (forall token, In token (to_postfix T) -> In token expression))
    \/ main_build_tree expression = Raise IndexError
    \/ (exists msg kind,
          main_build_tree expression = Raise (ValueError msg)
          /\ error_kind (ValueError msg) = Some kind
          /\ construction_kind kind = true).
Proof.
  intros [|first rest]; [right; left; reflexivity|].
  unfold main_build_tree. rewrite detect_expression_type_cons.
  destruct (is_operator first).
  { cbn [bind].
    replace ("prefix" =? "infix")%string with false by reflexivity.
    replace ("prefix" =? "prefix")%string with true by reflexivity.
    destruct (build_tree_from_prefix_kind (first :: rest))
      as [[T H]|(msg & kind & H & K)]; rewrite H.
    - left. exists T. split; [reflexivity|].
      split; [now apply (build_prefix_shape (first :: rest))|].
      intros token Hin. apply to_prefix_build in H. rewrite <- H.
      now apply in_to_postfix.
    - right. right. eauto. }
  destruct (is_operator (last rest first)).
  { cbn [bind].
    replace ("postfix" =? "infix")%string with false by reflexivity.
    replace ("postfix" =? "prefix")%string with false by reflexivity.
    replace ("postfix" =? "postfix")%string with true by reflexivity.
    destruct (build_tree_from_postfix_kind (first :: rest))
      as [[T H]|(msg & kind & H & K)]; rewrite H.
    - left. exists T. split; [reflexivity|].
      split; [now apply (build_postfix_shape (first :: rest))|].
      intros token Hin. apply to_postfix_build in H. now rewrite <- H.
    - right. right. eauto. }
  cbn [bind]. replace ("infix" =? "infix")%string with true by reflexivity.
  unfold infix_to_postfix.
  pose proof (infix_loop_spec (first :: rest) [] [] eq_refl) as Hspec.
  destruct (infix_loop (first :: rest) [] []) as [[output stack]|e|];
    cbn [infix_loop_outcome bind] in *.
  - destruct Hspec as (_ & _ & _ & Hperm). rewrite <- pop_all_app in Hperm.
    destruct (build_tree_from_postfix_kind (pop_all output stack))
      as [[T H]|(msg & kind & H & K)]; rewrite H.
    + left. exists T. split; [reflexivity|].
      pose proof (build_postfix_shape _ _ H) as Hshape.
      split; [exact Hshape|]. intros token Hin.
      pose proof (built_shape_no_paren T token Hshape Hin) as Hparen.
      apply to_postfix_build in H. rewrite H in Hin.
      assert (Hf : In token
                     (filter (fun t => negb (is_paren t))
                        (pop_all output stack))).
      { apply filter_In. now rewrite Hparen. }
      apply (Permutation_in _ Hperm) in Hf. cbn [app] in Hf.
      now apply filter_In in Hf.
    + right. right. eauto.
  - destruct e; try contradiction.
    + destruct Hspec as (t & _ & _ & ->). right. right.
      do 2 eexists. split; [reflexivity|].
      split; [apply invalid_token_kind|reflexivity].
    + right. left. reflexivity.
  - contradiction.
Qed.

(** X17: on an expression without [^], steps 1 to 4 of [main] return the
    three notations and a float, or raise an [IndexError] or a
    [ZeroDivisionError] of the runtime, which [main] reports as
    unexpected, or raise a [ValueError] for an invalid token, too few
    operands, a wrong number of operands and operators or a non-numeric
    operand; the "Invalid expression type detected" and "Invalid node in
    expression tree" errors are never raised. *)
Theorem main_compute_outcomes :
  forall expression : list string,
    forallb (fun t => negb (t =? "^")%string) expression = true ->
    (exists infix postfix prefix x,
       main_compute expression
       = Return (infix, postfix, prefix, PyFloat x))
    \/ main_compute expression = Raise IndexError
    \/ main_compute expression = Raise ZeroDivisionError
    \/ (exists msg kind,
          main_compute expression = Raise (ValueError msg)
          /\ error_kind (ValueError msg) = Some kind
          /\ (construction_kind kind = true \/ kind = NonNumericOperand)).
Proof.
  intros expression Hpow. unfold main_compute.
  destruct (main_build_tree_outcome expression)
    as [(T & H & Hshape & Hin)|[H|(msg & kind & H & K & C)]]; rewrite H;
    cbn [bind].
  - assert (HT : forallb (fun t => negb (t =? "^")%string) (to_postfix T)
                 = true).
    { apply forallb_forall. intros token Ht.
      rewrite forallb_forall in Hpow. apply Hpow, Hin, Ht. }
    destruct (evaluate_shape_outcome T Hshape HT) as [[x Hx]|[Hx|Hx]];
      rewrite Hx; cbn [bind].
    + left. do 4 eexists. reflexivity.
    + right. right. right. do 2 eexists.
      split; [reflexivity|]. split; [reflexivity|now right].
    + right. right. left. reflexivity.
  - right. left. reflexivity.
  - right. right. right. exists msg, kind. auto.
Qed.

Lemma main_compute_outcomes_witness :
  (exists infix postfix prefix x,
     main_compute ["("; "7"; "-"; "2"; ")"; "*"; "y"]
     = Return (infix, postfix, prefix, PyFloat x))
  \/ main_compute ["("; "7"; "-"; "2"; ")"; "*"; "y"] = Raise IndexError
  \/ main_compute ["("; "7"; "-"; "2"; ")"; "*"; "y"] = Raise ZeroDivisionError
  \/ (exists msg kind,
        main_compute ["("; "7"; "-"; "2"; ")"; "*"; "y"]
        = Raise (ValueError msg)
        /\ error_kind (ValueError msg) = Some kind
        /\ (construction_kind kind = true \/ kind = NonNumericOperand)).
Proof.
  apply (main_compute_outcomes ["("; "7"; "-"; "2"; ")"; "*"; "y"]).
  reflexivity.
Defined.

End MainOutcomes.

(* ===================================================================== *)
(** * Parentheses in an infix expression                                  *)
(* ===================================================================== *)

Section Parentheses.

Lemma infix_loop_open :
  forall rest output stack,
    infix_loop ("(" :: rest) output stack
    = infix_loop rest output ("(" :: stack).
Proof. reflexivity. Qed.

Lemma infix_loop_close :
  forall rest output stack,
    infix_loop (")" :: rest) output stack
    = (let '(output', stack') := pop_to_paren output stack in
       ' (_, stack'') <- pop stack' ;;
       infix_loop rest output' stack'').
Proof. reflexivity. Qed.

Lemma operator_not_open :
  forall op, is_operator op = true -> (op =? "(")%string = false.
Proof.
  intros op H.
  destruct (is_operator_cases _ H) as [->|[->|[->|[->| ->]]]]; reflexivity.
Qed.

Lemma pop_operators_at_open :
  forall token output stack,
    pop_operators token output ("(" :: stack) = Return (output, "(" :: stack).
Proof. reflexivity. Qed.

Lemma pop_to_paren_operator :
  forall op output stack,
    is_operator op = true ->
    pop_to_paren output (op :: "(" :: stack)
    = (output ++ [op], "(" :: stack).
Proof.
  intros op output stack H. cbn [pop_to_paren].
  rewrite (operator_not_open _ H). reflexivity.
Qed.

Lemma infix_parenthesised_right :
  forall a b c o1 o2 : string,
    is_operand a = true -> is_operand b = true -> is_operand c = true ->
    is_operator o1 = true -> is_operator o2 = true ->
    infix_to_postfix [a; o1; "("; b; o2; c; ")"] = Return [a; b; c; o2; o1].
Proof.
  intros a b c o1 o2 Ha Hb Hc H1 H2. unfold infix_to_postfix.
  rewrite (infix_loop_operand a), (infix_loop_operator o1) by assumption.
  cbn [pop_operators bind app].
  rewrite infix_loop_open, (infix_loop_operand b) by assumption.
  rewrite (infix_loop_operator o2), pop_operators_at_open by assumption.
  cbn [bind app].
  rewrite (infix_loop_operand c), infix_loop_close by assumption.
  rewrite (pop_to_paren_operator o2) by assumption.
  reflexivity.
Qed.

Lemma infix_parenthesised_left :
  forall a b c o1 o2 : string,
    is_operand a = true -> is_operand b = true -> is_operand c = true ->
    is_operator o1 = true -> is_operator o2 = true ->
    infix_to_postfix ["("; a; o1; b; ")"; o2; c] = Return [a; b; o1; c; o2].
Proof.
  intros a b c o1 o2 Ha Hb Hc H1 H2. unfold infix_to_postfix.
  rewrite infix_loop_open, (infix_loop_operand a) by assumption.
  rewrite (infix_loop_operator o1), pop_operators_at_open by assumption.
  cbn [bind app].
  rewrite (infix_loop_operand b), infix_loop_close by assumption.
  rewrite (pop_to_paren_operator o1) by assumption.
  cbn [pop bind app].
  rewrite (infix_loop_operator o2) by assumption.
  cbn [pop_operators bind].
  rewrite (infix_loop_operand c) by assumption.
  reflexivity.
Qed.

(** X18: parentheses decide the grouping whatever the precedences: for
    operands [a], [b], [c] and operators [o1], [o2], the tree of
    [a o1 ( b o2 c )] applies [o2] first and the tree of
    [( a o1 b ) o2 c] applies [o1] first. *)
Theorem infix_parentheses_group :
  forall a b c o1 o2 : string,
    is_operand a = true -> is_operand b = true -> is_operand c = true ->
    is_operator o1 = true -> is_operator o2 = true ->
    (postfix <- infix_to_postfix [a; o1; "("; b; o2; c; ")"] ;;
     build_tree_from_postfix postfix)
    = Return (Node o1 (new_TreeNode a)
                      (Node o2 (new_TreeNode b) (new_TreeNode c)))
    /\
    (postfix <- infix_to_postfix ["("; a; o1; b; ")"; o2; c] ;;
     build_tree_from_postfix postfix)
    = Return (Node o2 (Node o1 (new_TreeNode a) (new_TreeNode b))
                      (new_TreeNode c)).
Proof.
  intros a b c o1 o2 Ha Hb Hc H1 H2.
  rewrite (infix_parenthesised_right a b c o1 o2),
          (infix_parenthesised_left a b c o1 o2) by assumption.
  cbn [bind]. split.
  - apply (build_postfix_of_shape
             (Node o1 (new_TreeNode a)
                      (Node o2 (new_TreeNode b) (new_TreeNode c)))).
    cbn [built_shape new_TreeNode is_none andb].
    now rewrite (operator_not_operand _ H1), (operator_not_operand _ H2),
      H1, H2, Ha, Hb, Hc.
  - apply (build_postfix_of_shape
             (Node o2 (Node o1 (new_TreeNode a) (new_TreeNode b))
                      (new_TreeNode c))).
    cbn [built_shape new_TreeNode is_none andb].
    now rewrite (operator_not_operand _ H1), (operator_not_operand _ H2),
      H1, H2, Ha, Hb, Hc.
Qed.

Lemma infix_parentheses_group_witness :
  (postfix <- infix_to_postfix ["a"; "*"; "("; "b"; "+"; "c"; ")"] ;;
   build_tree_from_postfix postfix)
  = Return (Node "*" (new_TreeNode "a")
                     (Node "+" (new_TreeNode "b") (new_TreeNode "c")))
  /\
  (postfix <- infix_to_postfix ["("; "a"; "*"; "b"; ")"; "+"; "c"] ;;
   build_tree_from_postfix postfix)
  = Return (Node "+" (Node "*" (new_TreeNode "a") (new_TreeNode "b"))
                     (new_TreeNode "c")).
Proof.
  apply (infix_parentheses_group "a" "b" "c" "*" "+"); reflexivity.
Defined.

End Parentheses.
